(** * messenger_process: process managers, messenger processes and timed loops

    A shallow embedding of [ipc/signals.py], [ipc/message.py],
    [ipc/process_manager.py], [ipc/messenger_process.py] and
    [timing/timed_loop.py].

    Python objects are records, dictionaries are [gmap]s, and every method is
    a function that takes the object and the outside world and gives back an
    outcome together with the object and the world as the call left them.  An
    outcome is a returned value, a raised exception, or a call that blocks
    for ever.  Mutations made before an exception is raised stay visible, as
    they do in Python.

    Times are rationals: [time.perf_counter] and the arguments of
    [time.sleep] are floats in the source, and the development reasons about
    the schedule they stand for.  Rounding, infinities and NaN are outside
    the model: every period and every time is a finite number.

    The other processes run at the same time as the one that is modelled.
    What they do is part of the world a call finds: which channel ends have
    been closed, whether the buffer of a channel has room, whether a child
    exits while it is joined, by how much a sleep overshoots. *)

From Stdlib Require Import QArith Qminmax Lqa.
From stdpp Require Import base gmap strings list fin_maps pretty.

Local Open Scope string_scope.

(** ** Outcomes *)

(** The exception classes the modelled code raises or catches; each carries
    the text of its message ([KeyError] carries the missing key). *)
Inductive exn :=
| RuntimeError (m : string)
| KeyError (k : string)
| ValueError (m : string)
| AttributeError (m : string)
| TypeError (m : string)
| NameError (m : string)
| OverflowError (m : string)
| IndexError (m : string)
| ZeroDivisionError (m : string)
| AssertionError (m : string)
| BrokenPipeError (m : string)
| EOFError (m : string).

Inductive res (A : Type) :=
| Ok (a : A)
| Raise (e : exn)
| Block.
Arguments Ok {A} a.
Arguments Raise {A} e.
Arguments Block {A}.

Definition returns {A} (r : res A) : bool :=
  match r with Ok _ => true | _ => false end.

Definition raises {A} (r : res A) : bool :=
  match r with Raise _ => true | _ => false end.

(** ** ipc/signals.py *)

(** The members of the seven enumerations, named [ENUM_MEMBER]. *)
Inductive Signal :=
| DXL_SIGNAL_INITIALIZATION_COMPLETE
| VREP_SIGNAL_INITIALIZATION_COMPLETE
| BULLET_SIGNAL_INITIALIZATION_COMPLETE
| DMPC_SIGNAL_REQUESTING_PLAN
| DMPC_SIGNAL_PLANNING_COMPLETE
| DMPC_SIGNAL_PLANNING_FAILURE
| MESSENGER_SIGNAL_A
| MESSENGER_SIGNAL_B
| MESSENGER_SIGNAL_C
| MP_TRANSPORT_STOP
| MP_TRANSPORT_HEARTBEAT
| JLC_SIGNAL_STARTING_CONTROL_LOOP.

Inductive EnumClass :=
| DXL_SIGNAL | VREP_SIGNAL | BULLET_SIGNAL | DMPC_SIGNAL
| MESSENGER_SIGNAL | MP_TRANSPORT | JLC_SIGNAL.

(** [type(member)] *)
Definition enum_of (s : Signal) : EnumClass :=
  match s with
  | DXL_SIGNAL_INITIALIZATION_COMPLETE => DXL_SIGNAL
  | VREP_SIGNAL_INITIALIZATION_COMPLETE => VREP_SIGNAL
  | BULLET_SIGNAL_INITIALIZATION_COMPLETE => BULLET_SIGNAL
  | DMPC_SIGNAL_REQUESTING_PLAN
  | DMPC_SIGNAL_PLANNING_COMPLETE
  | DMPC_SIGNAL_PLANNING_FAILURE => DMPC_SIGNAL
  | MESSENGER_SIGNAL_A | MESSENGER_SIGNAL_B | MESSENGER_SIGNAL_C =>
      MESSENGER_SIGNAL
  | MP_TRANSPORT_STOP | MP_TRANSPORT_HEARTBEAT => MP_TRANSPORT
  | JLC_SIGNAL_STARTING_CONTROL_LOOP => JLC_SIGNAL
  end.

(** [str(member)], as [enum.Enum] prints it. *)
Definition signal_str (s : Signal) : string :=
  match s with
  | DXL_SIGNAL_INITIALIZATION_COMPLETE => "DXL_SIGNAL.INITIALIZATION_COMPLETE"
  | VREP_SIGNAL_INITIALIZATION_COMPLETE => "VREP_SIGNAL.INITIALIZATION_COMPLETE"
  | BULLET_SIGNAL_INITIALIZATION_COMPLETE =>
      "BULLET_SIGNAL.INITIALIZATION_COMPLETE"
  | DMPC_SIGNAL_REQUESTING_PLAN => "DMPC_SIGNAL.REQUESTING_PLAN"
  | DMPC_SIGNAL_PLANNING_COMPLETE => "DMPC_SIGNAL.PLANNING_COMPLETE"
  | DMPC_SIGNAL_PLANNING_FAILURE => "DMPC_SIGNAL.PLANNING_FAILURE"
  | MESSENGER_SIGNAL_A => "MESSENGER_SIGNAL.A"
  | MESSENGER_SIGNAL_B => "MESSENGER_SIGNAL.B"
  | MESSENGER_SIGNAL_C => "MESSENGER_SIGNAL.C"
  | MP_TRANSPORT_STOP => "MP_TRANSPORT.STOP"
  | MP_TRANSPORT_HEARTBEAT => "MP_TRANSPORT.HEARTBEAT"
  | JLC_SIGNAL_STARTING_CONTROL_LOOP => "JLC_SIGNAL.STARTING_CONTROL_LOOP"
  end.

#[global] Instance Signal_eq_dec : EqDecision Signal.
Proof. solve_decision. Defined.

#[global] Instance EnumClass_eq_dec : EqDecision EnumClass.
Proof. solve_decision. Defined.

Definition signal_code (s : Signal) : nat :=
  match s with
  | DXL_SIGNAL_INITIALIZATION_COMPLETE => 0
  | VREP_SIGNAL_INITIALIZATION_COMPLETE => 1
  | BULLET_SIGNAL_INITIALIZATION_COMPLETE => 2
  | DMPC_SIGNAL_REQUESTING_PLAN => 3
  | DMPC_SIGNAL_PLANNING_COMPLETE => 4
  | DMPC_SIGNAL_PLANNING_FAILURE => 5
  | MESSENGER_SIGNAL_A => 6
  | MESSENGER_SIGNAL_B => 7
  | MESSENGER_SIGNAL_C => 8
  | MP_TRANSPORT_STOP => 9
  | MP_TRANSPORT_HEARTBEAT => 10
  | JLC_SIGNAL_STARTING_CONTROL_LOOP => 11
  end%nat.

Definition signal_of_code (n : nat) : Signal :=
  match n with
  | 0 => DXL_SIGNAL_INITIALIZATION_COMPLETE
  | 1 => VREP_SIGNAL_INITIALIZATION_COMPLETE
  | 2 => BULLET_SIGNAL_INITIALIZATION_COMPLETE
  | 3 => DMPC_SIGNAL_REQUESTING_PLAN
  | 4 => DMPC_SIGNAL_PLANNING_COMPLETE
  | 5 => DMPC_SIGNAL_PLANNING_FAILURE
  | 6 => MESSENGER_SIGNAL_A
  | 7 => MESSENGER_SIGNAL_B
  | 8 => MESSENGER_SIGNAL_C
  | 9 => MP_TRANSPORT_STOP
  | 10 => MP_TRANSPORT_HEARTBEAT
  | _ => JLC_SIGNAL_STARTING_CONTROL_LOOP
  end%nat.

#[global] Program Instance Signal_countable : Countable Signal :=
  inj_countable' signal_code signal_of_code _.
Next Obligation. by intros []. Qed.

(** ** Python values *)

(** The values that travel in messages and over channels: [None], integers,
    strings, enumeration members and connection objects (a channel end,
    named by its number). *)
Inductive pyval :=
| VNone
| VInt (z : Z)
| VStr (s : string)
| VSig (s : Signal)
| VConn (c : nat).

#[global] Instance pyval_eq_dec : EqDecision pyval.
Proof. solve_decision. Defined.

Definition pyval_enc (v : pyval) : unit + (Z + (string + (Signal + nat))) :=
  match v with
  | VNone => inl tt
  | VInt z => inr (inl z)
  | VStr s => inr (inr (inl s))
  | VSig s => inr (inr (inr (inl s)))
  | VConn c => inr (inr (inr (inr c)))
  end.

Definition pyval_dec (x : unit + (Z + (string + (Signal + nat)))) : pyval :=
  match x with
  | inl _ => VNone
  | inr (inl z) => VInt z
  | inr (inr (inl s)) => VStr s
  | inr (inr (inr (inl s))) => VSig s
  | inr (inr (inr (inr c))) => VConn c
  end.

#[global] Program Instance pyval_countable : Countable pyval :=
  inj_countable' pyval_enc pyval_dec _.
Next Obligation. by intros []. Qed.

(** [str(v)], used where the source formats a value into a message. *)
Definition py_str (v : pyval) : string :=
  match v with
  | VNone => "None"
  | VInt z => pretty z
  | VStr s => s
  | VSig s => signal_str s
  | VConn c => "<Connection " ++ pretty c ++ ">"
  end.

(** What a channel carries: a bare value (the stop and heartbeat sentinels,
    raw payloads) or a dictionary with string keys (a message). *)
Inductive packet :=
| PVal (v : pyval)
| PDict (d : gmap string pyval).

#[global] Instance packet_eq_dec : EqDecision packet.
Proof. solve_decision. Defined.


(** ** ipc/message.py *)

(** [Message(type)]: a dictionary whose key ['type'] is always present. *)
Definition Message (type : pyval) : gmap string pyval :=
  <["type" := type]> ∅.

(** [create_message(type, **kwargs)]: the named fields are copied in, in
    turn, over the freshly built message. *)
Definition create_message (type : pyval) (kwargs : list (string * pyval))
  : gmap string pyval :=
  foldl (fun msg kv => <[kv.1 := kv.2]> msg) (Message type) kwargs.

(** [Message.type] *)
Definition Message_type (msg : gmap string pyval) : res pyval :=
  match msg !! "type" with
  | Some v => Ok v
  | None => Raise (KeyError "type")
  end.

(** ** The world outside the object *)

Inductive level := DEBUG | INFO.

(** An operating-system process as [multiprocessing.Process] describes it:
    the entry function (by name), its arguments, the daemon flag, and the
    exit code a join observes ([None] while the process is still running). *)
Record Process := {
  target : string;
  args : list pyval;
  kwargs : gmap string pyval;
  daemon : bool;
  exitcode : option Z
}.

(** What a [join] with a timeout finds: the exit code it observes ([None]
    if the process is still running when the time is up), the time it
    waited, and the channel ends that were closed in the meantime because
    the processes that held them exited. *)
Record JoinResult := {
  observed : option Z;
  waited : Q;
  gone : gset nat
}.

(** Channel ends are numbered; the two ends of the [k]-th pipe are [2k] and
    [2k+1].  [inbound] holds, for each end, the packets waiting to be read
    there, and [closed] the ends that no process holds open any more.
    [fits q p] says whether the buffer of a channel that holds the unread
    packets [q] has room for [p].  [procs] lists the processes started so
    far, in order; a process handle is an index into it.  [daemonic] says
    whether the modelled process is itself a daemon.  [join_result h t] is
    what a join of the process [h] with timeout [t] finds.  [now] is the
    monotonic clock and [sleeps] the lengths passed to [time.sleep] so far,
    most recent first; [sleep_limit] is the longest sleep the platform's
    primitive accepts, and [oversleep t secs] the time by which a sleep of
    [secs] seconds begun at [t] overshoots.  [memory] is the shared data
    store the synchronized loops read: a dictionary per location.
    [dict_text d] is the text Python prints for the dictionary [d]: the
    items in the order of their insertion, which a map does not record, so
    the world supplies it. *)
Record World := {
  inbound : gmap nat (list packet);
  closed : gset nat;
  fits : list packet -> packet -> bool;
  next_pipe : nat;
  procs : list Process;
  daemonic : bool;
  join_result : nat -> Q -> JoinResult;
  log : list (level * string);
  stdout : list string;
  now : Q;
  sleeps : list Q;
  sleep_limit : Q;
  oversleep : Q -> Q -> Q;
  memory : gmap string (gmap string (list Q));
  pid : Z;
  dict_text : gmap string pyval -> string
}.

Definition with_inbound (q : gmap nat (list packet)) (w : World) : World :=
  {| inbound := q; closed := closed w; fits := fits w;
     next_pipe := next_pipe w; procs := procs w; daemonic := daemonic w;
     join_result := join_result w; log := log w; stdout := stdout w;
     now := now w; sleeps := sleeps w; sleep_limit := sleep_limit w;
     oversleep := oversleep w; memory := memory w; pid := pid w;
     dict_text := dict_text w |}.

Definition with_closed (x : gset nat) (w : World) : World :=
  {| inbound := inbound w; closed := x; fits := fits w;
     next_pipe := next_pipe w; procs := procs w; daemonic := daemonic w;
     join_result := join_result w; log := log w; stdout := stdout w;
     now := now w; sleeps := sleeps w; sleep_limit := sleep_limit w;
     oversleep := oversleep w; memory := memory w; pid := pid w;
     dict_text := dict_text w |}.

Definition with_next_pipe (n : nat) (w : World) : World :=
  {| inbound := inbound w; closed := closed w; fits := fits w;
     next_pipe := n; procs := procs w; daemonic := daemonic w;
     join_result := join_result w; log := log w; stdout := stdout w;
     now := now w; sleeps := sleeps w; sleep_limit := sleep_limit w;
     oversleep := oversleep w; memory := memory w; pid := pid w;
     dict_text := dict_text w |}.

Definition with_procs (ps : list Process) (w : World) : World :=
  {| inbound := inbound w; closed := closed w; fits := fits w;
     next_pipe := next_pipe w; procs := ps; daemonic := daemonic w;
     join_result := join_result w; log := log w; stdout := stdout w;
     now := now w; sleeps := sleeps w; sleep_limit := sleep_limit w;
     oversleep := oversleep w; memory := memory w; pid := pid w;
     dict_text := dict_text w |}.

Definition with_daemonic (b : bool) (w : World) : World :=
  {| inbound := inbound w; closed := closed w; fits := fits w;
     next_pipe := next_pipe w; procs := procs w; daemonic := b;
     join_result := join_result w; log := log w; stdout := stdout w;
     now := now w; sleeps := sleeps w; sleep_limit := sleep_limit w;
     oversleep := oversleep w; memory := memory w; pid := pid w;
     dict_text := dict_text w |}.

Definition with_log (l : list (level * string)) (w : World) : World :=
  {| inbound := inbound w; closed := closed w; fits := fits w;
     next_pipe := next_pipe w; procs := procs w; daemonic := daemonic w;
     join_result := join_result w; log := l; stdout := stdout w;
     now := now w; sleeps := sleeps w; sleep_limit := sleep_limit w;
     oversleep := oversleep w; memory := memory w; pid := pid w;
     dict_text := dict_text w |}.

Definition with_stdout (o : list string) (w : World) : World :=
  {| inbound := inbound w; closed := closed w; fits := fits w;
     next_pipe := next_pipe w; procs := procs w; daemonic := daemonic w;
     join_result := join_result w; log := log w; stdout := o;
     now := now w; sleeps := sleeps w; sleep_limit := sleep_limit w;
     oversleep := oversleep w; memory := memory w; pid := pid w;
     dict_text := dict_text w |}.

Definition with_clock (t : Q) (sl : list Q) (w : World) : World :=
  {| inbound := inbound w; closed := closed w; fits := fits w;
     next_pipe := next_pipe w; procs := procs w; daemonic := daemonic w;
     join_result := join_result w; log := log w; stdout := stdout w;
     now := t; sleeps := sl; sleep_limit := sleep_limit w;
     oversleep := oversleep w; memory := memory w; pid := pid w;
     dict_text := dict_text w |}.

Definition with_memory (m : gmap string (gmap string (list Q))) (w : World)
  : World :=
  {| inbound := inbound w; closed := closed w; fits := fits w;
     next_pipe := next_pipe w; procs := procs w; daemonic := daemonic w;
     join_result := join_result w; log := log w; stdout := stdout w;
     now := now w; sleeps := sleeps w; sleep_limit := sleep_limit w;
     oversleep := oversleep w; memory := m; pid := pid w;
     dict_text := dict_text w |}.

(** A world with nothing in it, in a process that is no daemon: every
    channel end is open and every buffer has room, a join finds the process
    still running after it has waited out its timeout, and a sleep takes
    exactly its length; sleeps of up to [2^63] nanoseconds are accepted, as
    on a 64-bit platform. *)
Definition empty_world : World :=
  {| inbound := ∅; closed := ∅; fits := fun _ _ => true;
     next_pipe := 0; procs := []; daemonic := false;
     join_result := fun _ t => {| observed := None; waited := t; gone := ∅ |};
     log := []; stdout := [];
     now := 0%Q; sleeps := []; sleep_limit := (9223372036 # 1)%Q;
     oversleep := fun _ _ => 0%Q;
     memory := ∅;
     pid := 1%Z;
     dict_text := fun _ => "{...}" |}.

(** [log.debug(text)], [log.info(text)], [print(text)] *)
Definition log_debug (text : string) (w : World) : World :=
  with_log (log w ++ [(DEBUG, text)])%list w.

Definition log_info (text : string) (w : World) : World :=
  with_log (log w ++ [(INFO, text)])%list w.

Definition print (text : string) (w : World) : World :=
  with_stdout (stdout w ++ [text])%list w.

(** [str(p)] for a packet, as the source formats it into a log line. *)
Definition packet_str (w : World) (p : packet) : string :=
  match p with
  | PVal v => py_str v
  | PDict d => dict_text w d
  end.

(** [multiprocessing.Pipe()]: a fresh duplex channel, both ends open; the
    result is the pair of its ends. *)
Definition Pipe (w : World) : (nat * nat) * World :=
  let k := next_pipe w in
  ((2 * k, 2 * k + 1)%nat,
   with_closed (closed w ∖ {[ (2 * k)%nat; (2 * k + 1)%nat ]})
     (with_next_pipe (S k) w)).

Definition peer (c : nat) : nat :=
  if Nat.even c then S c else Nat.pred c.

Definition waiting (c : nat) (w : World) : list packet :=
  default [] (inbound w !! c).

(** [connection.send(p)] on the end [c].  When the other end is closed the
    call raises [BrokenPipeError]; when the buffer has no room it blocks (it
    stays blocked for as long as nobody reads at the other end); otherwise
    the packet joins the queue of the other end. *)
Definition conn_send (c : nat) (p : packet) (w : World) : res unit * World :=
  if decide (peer c ∈ closed w) then
    (Raise (BrokenPipeError "[Errno 32] Broken pipe"), w)
  else if fits w (waiting (peer c) w) p then
    (Ok tt,
     with_inbound (<[peer c := (waiting (peer c) w ++ [p])%list]> (inbound w))
       w)
  else (Block, w).

(** [connection.poll(timeout)] on the end [c].  The world is the one the
    call finds.  The answer is [True] when a packet is waiting, and also
    when nothing is waiting and the other end is closed: the end of the
    stream is there to be read.  With nothing waiting and the other end
    open, a finite timeout ([Some t], [0] included) answers [False] and the
    infinite one ([None]) does not answer.  The time spent waiting is not
    charged to the clock. *)
Definition conn_poll (c : nat) (timeout : option Q) (w : World) : res bool :=
  match waiting c w with
  | _ :: _ => Ok true
  | [] =>
      if decide (peer c ∈ closed w) then Ok true
      else match timeout with
           | Some _ => Ok false
           | None => Block
           end
  end.

(** [connection.recv()] on the end [c]: takes the oldest waiting packet;
    with nothing waiting it raises [EOFError] when the other end is closed
    and blocks otherwise. *)
Definition conn_recv (c : nat) (w : World) : res packet * World :=
  match waiting c w with
  | p :: rest => (Ok p, with_inbound (<[c := rest]> (inbound w)) w)
  | [] =>
      if decide (peer c ∈ closed w) then (Raise (EOFError ""), w)
      else (Block, w)
  end.

(** [Process(...).start()]: refused with [AssertionError] in a daemonic
    process; otherwise the process is running from here on, and its handle
    is its position in [procs]. *)
Definition start (p : Process) (w : World) : res nat * World :=
  if daemonic w then
    (Raise (AssertionError
              "daemonic processes are not allowed to have children"), w)
  else (Ok (length (procs w)), with_procs (procs w ++ [p])%list w).

Definition with_exitcode (code : option Z) (p : Process) : Process :=
  {| target := target p; args := args p; kwargs := kwargs p;
     daemon := daemon p; exitcode := code |}.

(** [proc.join(timeout)] on the handle [h]: returns at once for a process
    whose exit has been observed already; otherwise it waits, for the time
    and with the result the world says, and records the exit code it
    finds. *)
Definition join (h : nat) (timeout : Q) (w : World) : World :=
  match procs w !! h with
  | Some p =>
      match exitcode p with
      | Some _ => w
      | None =>
          let j := join_result w h timeout in
          with_closed (closed w ∪ gone j)
            (with_clock (now w + Qmax (waited j) 0)%Q (sleeps w)
               (with_procs (<[h := with_exitcode (observed j) p]> (procs w))
                  w))
      end
  | None => w
  end.

(** ** ipc/process_manager.py *)

Record ProcessReference := {
  name : string;
  link_to_child : nat;
  proc : nat
}.

(** [self.name] is [pm_name]; [link_to_parent] is [None] for a master
    process; [msg] starts as Python's [None], the packet [PVal VNone]. *)
Record ProcessManager := {
  pm_name : string;
  ext_proc : gmap string ProcessReference;
  link_to_parent : option nat;
  msg : packet
}.

Definition with_ext_proc (t : gmap string ProcessReference)
  (pm : ProcessManager) : ProcessManager :=
  {| pm_name := pm_name pm; ext_proc := t;
     link_to_parent := link_to_parent pm; msg := msg pm |}.

Definition with_msg (m : packet) (pm : ProcessManager)
  : ProcessManager :=
  {| pm_name := pm_name pm; ext_proc := ext_proc pm;
     link_to_parent := link_to_parent pm; msg := m |}.

(** [ProcessManager.__init__(name, link_to_parent=None)] *)
Definition ProcessManager_init (name : string) (link_to_parent : option nat)
  : ProcessManager :=
  {| pm_name := name; ext_proc := ∅; link_to_parent := link_to_parent;
     msg := PVal VNone |}.

(** [ProcessManager.msg_is_stop_signal(msg)]:
    [type(msg) == MP_TRANSPORT and msg == MP_TRANSPORT.STOP]. *)
Definition msg_is_stop_signal (m : packet) : bool :=
  match m with
  | PVal (VSig s) =>
      bool_decide (enum_of s = MP_TRANSPORT)
      && bool_decide (s = MP_TRANSPORT_STOP)
  | _ => false
  end.

(** [ProcessManager.add_process(name, f, daemon=False, *args, **kwargs)] *)
Definition add_process (name' : string) (f : string) (daemon' : bool)
  (args' : list pyval) (kwargs' : gmap string pyval)
  (pm : ProcessManager) (w : World) : res unit * ProcessManager * World :=
  let '((to_child, to_parent), w1) := Pipe w in
  let kwargs'' := <["link_to_parent" := VConn to_parent]> kwargs' in
  let p := {| target := f; args := args'; kwargs := kwargs'';
              daemon := daemon'; exitcode := None |} in
  match start p w1 with
  | (Ok h, w2) =>
      if decide (is_Some (ext_proc pm !! name')) then
        (Raise (RuntimeError
                  ("Attempted to add multiples of the same process: "
                   ++ name')),
         pm, w2)
      else
        (Ok tt,
         with_ext_proc (<[name' := {| name := name'; link_to_child := to_child;
                                      proc := h |}]> (ext_proc pm)) pm,
         w2)
  | (Raise e, w2) => (Raise e, pm, w2)
  | (Block, w2) => (Block, pm, w2)
  end.

(** [proc.exitcode] after [proc.join(1)], as text. *)
Definition exitcode_str (h : nat) (w : World) : string :=
  match procs w !! h with
  | Some p => match exitcode p with
              | Some z => pretty z
              | None => "None"
              end
  | None => "None"
  end.

(** [ProcessManager.close_process(name)] *)
Definition close_process (name' : string)
  (pm : ProcessManager) (w : World) : res unit * ProcessManager * World :=
  let w1 := log_info ("Closing process " ++ name') w in
  match ext_proc pm !! name' with
  | None => (Raise (KeyError name'), pm, w1)
  | Some proc_ref =>
      match conn_send (link_to_child proc_ref)
                      (PVal (VSig MP_TRANSPORT_STOP)) w1 with
      | (Ok _, w2) =>
          let w3 := join (proc proc_ref) 1 w2 in
          let w4 := log_info ("proc " ++ name' ++ " exited with code "
                              ++ exitcode_str (proc proc_ref) w3) w3 in
          match ext_proc pm !! name' with
          | Some _ =>
              (Ok tt, with_ext_proc (delete name' (ext_proc pm)) pm, w4)
          | None => (Ok tt, pm, print ("Key " ++ name' ++ " not found") w4)
          end
      | (Raise e, w2) => (Raise e, pm, w2)
      | (Block, w2) => (Block, pm, w2)
      end
  end.

(** The connection a call addresses: the parent's when [proc_name] is
    [None], else [self.ext_proc[proc_name].link_to_child].  The result is
    the Python value found there, [None] included. *)
Definition connection_of (proc_name : option string) (pm : ProcessManager)
  : res (option nat) :=
  match proc_name with
  | None => Ok (link_to_parent pm)
  | Some n => match ext_proc pm !! n with
              | Some r => Ok (Some (link_to_child r))
              | None => Raise (KeyError n)
              end
  end.

(** [ProcessManager.poll(proc_name=None, timeout=0)] *)
Definition poll (proc_name : option string) (timeout : option Q)
  (pm : ProcessManager) (w : World) : res bool :=
  match connection_of proc_name pm with
  | Ok (Some c) =>
      match conn_poll c timeout w with
      | Ok true => Ok true
      | Ok false => Ok false
      | Raise e => Raise e
      | Block => Block
      end
  | Ok None =>
      Raise (AttributeError "'NoneType' object has no attribute 'poll'")
  | Raise e => Raise e
  | Block => Block
  end.

(** [ProcessManager.recv(proc_name=None)] *)
Definition recv (proc_name : option string)
  (pm : ProcessManager) (w : World) : res packet * World :=
  match connection_of proc_name pm with
  | Ok (Some c) => conn_recv c w
  | Ok None =>
      (Raise (AttributeError "'NoneType' object has no attribute 'recv'"), w)
  | Raise e => (Raise e, w)
  | Block => (Block, w)
  end.

(** [ProcessManager.send(proc_name=None, msg=None)] *)
Definition send (proc_name : option string) (m : packet)
  (pm : ProcessManager) (w : World) : res unit * World :=
  if decide (m = PVal VNone) then
    (Raise (ValueError "Must send a message"), w)
  else
    match proc_name with
    | None =>
        match link_to_parent pm with
        | None =>
            (Raise (ValueError "send() defaults to sending up to parent."), w)
        | Some c => conn_send c m w
        end
    | Some n =>
        match ext_proc pm !! n with
        | Some r => conn_send (link_to_child r) m w
        | None => (Raise (KeyError n), w)
        end
    end.

(** [ProcessManager._check_exit_condition()] *)
Definition _check_exit_condition (pm : ProcessManager) (w : World)
  : res bool * ProcessManager * World :=
  match link_to_parent pm with
  | None =>
      (Raise (ValueError "Can't check exit condition as master process"),
       pm, w)
  | Some _ =>
      match poll None (Some 0%Q) pm w with
      | Ok true =>
          match recv None pm w with
          | (Ok m, w1) =>
              if msg_is_stop_signal m then
                (Ok true, pm, log_debug ("exiting proc " ++ pm_name pm) w1)
              else
                (Ok false, with_msg m pm, log_debug (packet_str w1 m) w1)
          | (Raise e, w1) => (Raise e, pm, w1)
          | (Block, w1) => (Block, pm, w1)
          end
      | Ok false => (Ok false, pm, w)
      | Raise e => (Raise e, pm, w)
      | Block => (Block, pm, w)
      end
  end.


(** [ChildManager.__init__(name, link_to_parent)].  The second parameter has
    no default: [link_to_parent] is [None] when the caller leaves the
    argument out and [Some v] when the caller passes the value [v], which
    may itself be Python's [None]. *)
Definition ChildManager_init (name : string)
  (link_to_parent : option (option nat)) : res ProcessManager :=
  match link_to_parent with
  | None =>
      Raise (TypeError
        "__init__() missing 1 required positional argument: 'link_to_parent'")
  | Some v => Ok (ProcessManager_init name v)
  end.

(** ** ipc/messenger_process.py *)

(** A handler receives the fields of the message as keyword arguments.  It
    is any function of those arguments that may act on the world; what it
    returns, raises, or whether it blocks, is its own affair. *)
Definition handler : Type := gmap string pyval -> World -> res pyval * World.

Record MessengerProcess := {
  base : ProcessManager;
  recognized_signals : gmap pyval handler;
  should_stop : bool
}.

Definition with_base (pm : ProcessManager) (self : MessengerProcess)
  : MessengerProcess :=
  {| base := pm; recognized_signals := recognized_signals self;
     should_stop := should_stop self |}.

Definition with_recognized_signals (t : gmap pyval handler)
  (self : MessengerProcess) : MessengerProcess :=
  {| base := base self; recognized_signals := t;
     should_stop := should_stop self |}.

Definition with_should_stop (b : bool) (self : MessengerProcess)
  : MessengerProcess :=
  {| base := base self; recognized_signals := recognized_signals self;
     should_stop := b |}.

(** [MessengerProcess.heartbeat(self, *args, **kwargs)], bound to the object
    called [self_name].  The parameter [self] is taken by the object, so a
    keyword argument of that name is refused; any other argument is
    accepted and ignored. *)
Definition heartbeat (self_name : string) : handler :=
  fun kwargs w =>
    match kwargs !! "self" with
    | Some _ =>
        (Raise (TypeError
                  "heartbeat() got multiple values for argument 'self'"), w)
    | None =>
        (Ok VNone,
         log_info ("HEARTBEAT: " ++ self_name ++ " " ++ pretty (pid w)) w)
    end.

(** [MessengerProcess.add_signal(signal, fn)] *)
Definition add_signal (signal : pyval) (fn : handler)
  (self : MessengerProcess) : MessengerProcess :=
  with_recognized_signals (<[signal := fn]> (recognized_signals self)) self.

(** [MessengerProcess.__init__(name, link_to_parent=None)] *)
Definition MessengerProcess_init (name : string)
  (link_to_parent : option nat) : MessengerProcess :=
  let self0 := {| base := ProcessManager_init name link_to_parent;
                  recognized_signals := ∅;
                  should_stop := false |} in
  let self1 := add_signal (VSig MP_TRANSPORT_HEARTBEAT) (heartbeat name)
                          self0 in
  with_should_stop false self1.

Definition py_type_name (v : pyval) : string :=
  match v with
  | VNone => "NoneType"
  | VInt _ => "int"
  | VStr _ => "str"
  | VSig s => match enum_of s with
              | DXL_SIGNAL => "DXL_SIGNAL"
              | VREP_SIGNAL => "VREP_SIGNAL"
              | BULLET_SIGNAL => "BULLET_SIGNAL"
              | DMPC_SIGNAL => "DMPC_SIGNAL"
              | MESSENGER_SIGNAL => "MESSENGER_SIGNAL"
              | MP_TRANSPORT => "MP_TRANSPORT"
              | JLC_SIGNAL => "JLC_SIGNAL"
              end
  | VConn _ => "Connection"
  end.

(** The [TypeError] of [msg['type']] when [msg] is not a dictionary. *)
Definition not_subscriptable (v : pyval) : exn :=
  match v with
  | VStr _ => TypeError "string indices must be integers"
  | _ => TypeError ("'" ++ py_type_name v ++ "' object is not subscriptable")
  end.

(** [MessengerProcess.process_message(msg)].  The handler is called with
    the dictionary splatted into keyword arguments, so it is passed every
    key of it, ['type'] included. *)
Definition process_message (m : packet) (self : MessengerProcess)
  (w : World) : res pyval * World :=
  match m with
  | PDict d =>
      match d !! "type" with
      | Some ty =>
          match recognized_signals self !! ty with
          | Some fn => fn d w
          | None =>
              (Raise (AttributeError
                        (py_str ty ++ " is an unrecognized signal")),
               log_info ("received msg " ++ packet_str w m) w)
          end
      | None => (Raise (KeyError "type"), w)
      end
  | PVal v => (Raise (not_subscriptable v), w)
  end.

(** [MessengerProcess.there_is_a_new_message(proc_name=None, timeout=0)] *)
Definition there_is_a_new_message (proc_name : option string)
  (timeout : option Q) (self : MessengerProcess) (w : World) : res bool :=
  poll proc_name timeout (base self) w.

(** [MessengerProcess.handle_messages(proc_name=None)] *)
Definition handle_messages (proc_name : option string)
  (self : MessengerProcess) (w : World)
  : res bool * MessengerProcess * World :=
  match there_is_a_new_message proc_name (Some 0%Q) self w with
  | Ok true =>
      match recv proc_name (base self) w with
      | (Ok m, w1) =>
          if msg_is_stop_signal m then
            (Ok true, with_should_stop true self, w1)
          else
            match process_message m self w1 with
            | (Ok _, w2) => (Ok true, self, w2)
            | (Raise e, w2) => (Raise e, self, w2)
            | (Block, w2) => (Block, self, w2)
            end
      | (Raise e, w1) => (Raise e, self, w1)
      | (Block, w1) => (Block, self, w1)
      end
  | Ok false => (Ok false, self, w)
  | Raise e => (Raise e, self, w)
  | Block => (Block, self, w)
  end.

(** [MessengerProcess.get_messages(proc_name=None)] *)
Definition get_messages (proc_name : option string)
  (self : MessengerProcess) (w : World)
  : res packet * MessengerProcess * World :=
  match there_is_a_new_message proc_name (Some 0%Q) self w with
  | Ok true =>
      match recv proc_name (base self) w with
      | (r, w1) => (r, self, w1)
      end
  | Ok false => (Ok (PVal VNone), self, w)
  | Raise e => (Raise e, self, w)
  | Block => (Block, self, w)
  end.

(** [setup], [loop_routine] and [teardown] are [pass]. *)
Definition setup (self : MessengerProcess) (w : World)
  : res pyval * MessengerProcess * World := (Ok VNone, self, w).

Definition loop_routine (self : MessengerProcess) (w : World)
  : res pyval * MessengerProcess * World := (Ok VNone, self, w).

Definition teardown (self : MessengerProcess) (w : World)
  : res pyval * MessengerProcess * World := (Ok VNone, self, w).

(** [MessengerProcess.should_stop_loop()] *)
Definition should_stop_loop (self : MessengerProcess) : bool :=
  should_stop self.

(** The operations of the class, as a caller may issue them one after the
    other on the same object. *)
Inductive mp_op :=
| OpHandleMessages (proc_name : option string)
| OpProcessMessage (m : packet)
| OpGetMessages (proc_name : option string)
| OpAddSignal (signal : pyval) (fn : handler)
| OpShouldStopLoop
| OpSetup
| OpLoopRoutine
| OpTeardown
| OpHeartbeat (kwargs : gmap string pyval).

(** What an operation answers does not matter to the object's state, so the
    outcome is reduced to its shape. *)
Definition shape {A} (r : res A) : res unit :=
  match r with Ok _ => Ok tt | Raise e => Raise e | Block => Block end.

Definition run_op (op : mp_op) (self : MessengerProcess) (w : World)
  : res unit * MessengerProcess * World :=
  match op with
  | OpHandleMessages pn =>
      let '(r, s1, w1) := handle_messages pn self w in (shape r, s1, w1)
  | OpProcessMessage m =>
      let '(r, w1) := process_message m self w in (shape r, self, w1)
  | OpGetMessages pn =>
      let '(r, s1, w1) := get_messages pn self w in (shape r, s1, w1)
  | OpAddSignal sg fn => (Ok tt, add_signal sg fn self, w)
  | OpShouldStopLoop => (shape (Ok (should_stop_loop self)), self, w)
  | OpSetup => let '(r, s1, w1) := setup self w in (shape r, s1, w1)
  | OpLoopRoutine =>
      let '(r, s1, w1) := loop_routine self w in (shape r, s1, w1)
  | OpTeardown => let '(r, s1, w1) := teardown self w in (shape r, s1, w1)
  | OpHeartbeat kw =>
      let '(r, w1) := heartbeat (pm_name (base self)) kw w in
      (shape r, self, w1)
  end.

(** A caller that goes on after every operation, whatever its outcome (an
    exception caught, a blocked call abandoned): the state after the whole
    sequence. *)
Fixpoint run_ops (ops : list mp_op) (self : MessengerProcess) (w : World)
  : MessengerProcess * World :=
  match ops with
  | [] => (self, w)
  | op :: rest =>
      let '(_, s1, w1) := run_op op self w in run_ops rest s1 w1
  end.

(** The packet [handle_messages] would receive: the oldest one waiting on
    the channel the call addresses, if there is one. *)
Definition next_packet (proc_name : option string) (pm : ProcessManager)
  (w : World) : option packet :=
  match connection_of proc_name pm with
  | Ok (Some c) => head (waiting c w)
  | _ => None
  end.

(** ** timing/timed_loop.py *)

(** [time.perf_counter()] *)
Definition perf_counter (w : World) : Q := now w.

(** [time.sleep(secs)]: a negative length and a length beyond what the
    platform can represent are refused; otherwise the clock moves on by
    [secs] and by the time the sleep overshoots, which is never negative. *)
Definition time_sleep (secs : Q) (w : World) : res unit * World :=
  if Qlt_le_dec secs 0%Q then
    (Raise (ValueError "sleep length must be non-negative"), w)
  else if Qlt_le_dec (sleep_limit w) secs then
    (Raise (OverflowError "timestamp too large to convert to C _PyTime_t"), w)
  else
    (Ok tt,
     with_clock (now w + secs + Qmax (oversleep w (now w) secs) 0)%Q
       (secs :: sleeps w) w).

(** The text a float prints as; the rational is shown as a fraction. *)
Definition float_str (q : Q) : string :=
  pretty (Qnum q) ++ "/" ++ pretty (Z.pos (Qden q)).

Record TimedLoop := {
  i : Z;
  dt : Q;
  init_time : option Q
}.

(** [TimedLoop.__init__(dt)] *)
Definition TimedLoop_init (dt : Q) : TimedLoop :=
  {| i := 0%Z; dt := dt; init_time := None |}.

(** [TimedLoop.change_dt(new_dt)] *)
Definition change_dt (new_dt : Q) (self : TimedLoop) : TimedLoop :=
  {| i := 0%Z; dt := new_dt; init_time := None |}.

(** [TimedLoop.reset_start_time()] *)
Definition reset_start_time (self : TimedLoop) : TimedLoop :=
  {| i := 0%Z; dt := dt self; init_time := None |}.

(** The first statements of both wrappers: the counter goes up by one, then
    [self.i * self.dt + self.init_time] is evaluated; with [init_time] still
    [None] the sum raises [TypeError], and the handler reads the clock into
    [init_time] and evaluates the sum again.  The result is the desired end
    time and the object as these statements leave it. *)
Definition schedule (self : TimedLoop) (w : World) : Q * TimedLoop :=
  let self1 := {| i := (i self + 1)%Z; dt := dt self;
                  init_time := init_time self |} in
  match init_time self1 with
  | Some t0 => ((inject_Z (i self1) * dt self1 + t0)%Q, self1)
  | None =>
      let t0 := perf_counter w in
      ((inject_Z (i self1) * dt self1 + t0)%Q,
       {| i := i self1; dt := dt self1; init_time := Some t0 |})
  end.

(** A function to be paced: its arguments are already applied, so it is an
    action on the world with an outcome. *)
Definition loop_fn : Type := World -> res pyval * World.

(** The [wrapper] that [TimedLoop.__call__(loop_func)] returns. *)
Definition TimedLoop_wrapper (loop_func : loop_fn) (self : TimedLoop)
  (w : World) : res pyval * TimedLoop * World :=
  let '(des_end_time, self1) := schedule self w in
  match loop_func w with
  | (Ok r, w1) =>
      let current_time := perf_counter w1 in
      match time_sleep (Qmax (des_end_time - current_time) 0)%Q w1 with
      | (Ok _, w2) => (Ok r, self1, w2)
      | (Raise e, w2) => (Raise e, self1, w2)
      | (Block, w2) => (Block, self1, w2)
      end
  | (Raise e, w1) => (Raise e, self1, w1)
  | (Block, w1) => (Block, self1, w1)
  end.

(** A timestep lookup function: no arguments, reads (and may act on) the
    world, answers the desired period. *)
Definition lookup_fn : Type := World -> res Q * World.

Record SynchronizedTimedLoop := {
  loop : TimedLoop;
  iterations_per_update : Z;
  timestep_lookup_fn : lookup_fn
}.

Definition with_loop (tl : TimedLoop) (self : SynchronizedTimedLoop)
  : SynchronizedTimedLoop :=
  {| loop := tl; iterations_per_update := iterations_per_update self;
     timestep_lookup_fn := timestep_lookup_fn self |}.

(** [SynchronizedTimedLoop.__init__(dt, iterations_per_update,
    timestep_lookup_fn)] *)
Definition SynchronizedTimedLoop_init (dt : Q) (iterations_per_update : Z)
  (timestep_lookup_fn : lookup_fn) : SynchronizedTimedLoop :=
  {| loop := TimedLoop_init dt;
     iterations_per_update := iterations_per_update;
     timestep_lookup_fn := timestep_lookup_fn |}.

(** [SynchronizedTimedLoop.synchronize()] *)
Definition synchronize (self : SynchronizedTimedLoop) (w : World)
  : res unit * SynchronizedTimedLoop * World :=
  match timestep_lookup_fn self w with
  | (Ok desired_dt, w1) =>
      (Ok tt, with_loop (change_dt desired_dt (loop self)) self, w1)
  | (Raise e, w1) => (Raise e, self, w1)
  | (Block, w1) => (Block, self, w1)
  end.

(** The sleep of the synchronized wrapper: [OverflowError] is caught and
    reported on standard output, anything else passes through. *)
Definition guarded_sleep (des_end_time current_time : Q) (w : World)
  : res unit * World :=
  match time_sleep (Qmax (des_end_time - current_time) 0)%Q w with
  | (Raise (OverflowError _), w1) =>
      let w2 := print ("OVERFLOW: "
                       ++ float_str (Qmax (des_end_time - current_time) 0)%Q)
                      w1 in
      (Ok tt,
       print (float_str des_end_time ++ " " ++ float_str current_time) w2)
  | other => other
  end.

(** The [wrapper] that [SynchronizedTimedLoop.__call__(loop_func)]
    returns. *)
Definition SynchronizedTimedLoop_wrapper (loop_func : loop_fn)
  (self : SynchronizedTimedLoop) (w : World)
  : res pyval * SynchronizedTimedLoop * World :=
  let '(des_end_time, tl1) := schedule (loop self) w in
  let self1 := with_loop tl1 self in
  match loop_func w with
  | (Ok r, w1) =>
      let current_time := perf_counter w1 in
      match guarded_sleep des_end_time current_time w1 with
      | (Ok _, w2) =>
          if (iterations_per_update self1 <=? i (loop self1))%Z then
            match synchronize self1 w2 with
            | (Ok _, self2, w3) => (Ok r, self2, w3)
            | (Raise e, self2, w3) => (Raise e, self2, w3)
            | (Block, self2, w3) => (Block, self2, w3)
            end
          else (Ok r, self1, w2)
      | (Raise e, w2) => (Raise e, self1, w2)
      | (Block, w2) => (Block, self1, w2)
      end
  | (Raise e, w1) => (Raise e, self1, w1)
  | (Block, w1) => (Block, self1, w1)
  end.

(** Modelled from the spec: the module [ipc.enums], which declares the
    enumeration [PLAYER], is imported by [timing/timed_loop.py] but is not
    among the sources.  The glossary names three players: the motor driver
    and the rigid-body engine, which share one store location, and the
    physics simulator, which has its own; the source calls them [DXL],
    [BULLET] and [VREP].  As the enumerations of [ipc/signals.py], it is
    taken to be a plain [enum.Enum], whose members are all true in a
    condition. *)
Inductive PLAYER := PLAYER_DXL | PLAYER_BULLET | PLAYER_VREP.

#[global] Instance PLAYER_eq_dec : EqDecision PLAYER.
Proof. solve_decision. Defined.

(** What a caller may pass as [player], and what a comparison yields: a
    boolean, a member of [PLAYER], or any other value. *)
Inductive pyobj :=
| OBool (b : bool)
| OPlayer (p : PLAYER)
| OVal (v : pyval).

#[global] Instance pyobj_eq_dec : EqDecision pyobj.
Proof. solve_decision. Defined.

(** The truth value of an object in a condition. *)
Definition truthy (o : pyobj) : bool :=
  match o with
  | OBool b => b
  | OPlayer _ => true
  | OVal VNone => false
  | OVal (VInt z) => negb (z =? 0)%Z
  | OVal (VStr s) => negb (String.eqb s "")
  | OVal (VSig _) => true
  | OVal (VConn _) => true
  end.

(** [player == PLAYER.member]: members of an enumeration are equal to
    themselves only. *)
Definition eq_player (o : pyobj) (p : PLAYER) : pyobj :=
  OBool (bool_decide (o = OPlayer p)).

(** [a or b]: [a] if it is true, else [b]. *)
Definition py_or (a b : pyobj) : pyobj :=
  if truthy a then a else b.

(** Modelled from the spec: the module [mem] of the shared-memory library.
    Its import is commented out in [timing/timed_loop.py], so the name is
    unbound in the code as shipped; the spec takes the store as an injected
    dependency.  A location is the key of its dictionary in [memory]. *)
Record MemModule := {
  DATA_CLOCK : string;
  DATA_VREP : string
}.

(** The function that [_get_timestep_lookup_function(control_loop_period,
    memory_loc, rtf_key)] returns. *)
Definition _get_timestep_lookup_function (control_loop_period : Q)
  (memory_loc : string) (rtf_key : string) : lookup_fn :=
  fun w =>
    let data := default ∅ (memory w !! memory_loc) in
    match data !! rtf_key with
    | None => (Raise (KeyError rtf_key), w)
    | Some [] => (Raise (IndexError "list index out of range"), w)
    | Some (real_time_factor :: _) =>
        if Qeq_bool real_time_factor 0 then
          (Raise (ZeroDivisionError "float division by zero"), w)
        else (Ok (control_loop_period / real_time_factor)%Q, w)
    end.

(** [get_timestep_lookup_function_by_player(control_loop_period, player)].
    [mem] is the binding of the name [mem] in the module: [None] as
    shipped, [Some m] once the shared-memory library is supplied.  The first
    condition is [player == PLAYER.DXL or PLAYER.BULLET]. *)
Definition get_timestep_lookup_function_by_player (mem : option MemModule)
  (control_loop_period : Q) (player : pyobj) : res lookup_fn :=
  let unbound := Raise (NameError "name 'mem' is not defined") in
  if truthy (py_or (eq_player player PLAYER_DXL) (OPlayer PLAYER_BULLET)) then
    match mem with
    | Some m =>
        Ok (_get_timestep_lookup_function control_loop_period (DATA_CLOCK m)
              "real_time_factor")
    | None => unbound
    end
  else if truthy (eq_player player PLAYER_VREP) then
    match mem with
    | Some m =>
        Ok (_get_timestep_lookup_function control_loop_period (DATA_VREP m)
              "real_time_factor")
    | None => unbound
    end
  else
    Raise (ValueError
      ("Non-recognized player enum specified for player device. "
       ++ "It should be either settings.PLAYER.DXL or settings.PLAYER.VREP.")).

(** ** Vocabulary of the properties *)

(** [ends_with suffix s]: [s] ends in [suffix]. *)
Fixpoint ends_with (suffix s : string) : bool :=
  if String.eqb suffix s then true
  else match s with
       | EmptyString => false
       | String _ rest => ends_with suffix rest
       end.

(** The four failure kinds of the specification, as the source raises them:
    [AlreadyExists] is the [RuntimeError] of [add_process], [NotFound] the
    [KeyError] of a table lookup, [InvalidArgument] a [ValueError], and
    [UnrecognizedSignal] the [AttributeError] of [process_message], known
    by its message. *)
Definition is_AlreadyExists (e : exn) : bool :=
  match e with RuntimeError _ => true | _ => false end.

Definition is_NotFound (e : exn) : bool :=
  match e with KeyError _ => true | _ => false end.

Definition is_InvalidArgument (e : exn) : bool :=
  match e with ValueError _ => true | _ => false end.

Definition is_UnrecognizedSignal (e : exn) : bool :=
  match e with
  | AttributeError m => ends_with " is an unrecognized signal" m
  | _ => false
  end.

Definition documented_failure (e : exn) : bool :=
  is_AlreadyExists e || is_NotFound e || is_InvalidArgument e
  || is_UnrecognizedSignal e.

(** The handles of the processes the manager's table refers to, and those of
    the processes that were started but that no entry of the table refers
    to: the manager can neither signal nor join the latter. *)
Definition managed (pm : ProcessManager) (h : nat) : bool :=
  existsb (fun kv => Nat.eqb (proc kv.2) h) (map_to_list (ext_proc pm)).

Definition unmanaged (pm : ProcessManager) (w : World) : list nat :=
  filter (fun h => managed pm h = false) (seq 0 (length (procs w))).

(** The handler of [test_map_signal_to_function] in [tests.py]:
    [def fn(val, **kwargs): return val]. *)
Definition fn_val : handler :=
  fun kwargs w =>
    match kwargs !! "val" with
    | Some v => (Ok v, w)
    | None =>
        (Raise (TypeError
                  "fn() missing 1 required positional argument: 'val'"), w)
    end.

(** A loop function whose body takes [d] seconds and returns [None]. *)
Definition busy (d : Q) : loop_fn :=
  fun w => (Ok VNone, with_clock (now w + d)%Q (sleeps w) w).

(** The loop [while True: loop_func()] unrolled over bodies that take the
    durations [ds] in turn, through one timed loop; it stops where a call
    does not return. *)
Fixpoint run_loop (ds : list Q) (self : TimedLoop) (w : World) : World :=
  match ds with
  | [] => w
  | d :: rest =>
      match TimedLoop_wrapper (busy d) self w with
      | (Ok _, self1, w1) => run_loop rest self1 w1
      | (_, _, w1) => w1
      end
  end.

(** ** The rest of the three modules *)

(** The order in which a Python dictionary iterates is the order of
    insertion, which the table as a finite map does not record.  An
    iteration order is therefore taken from outside: a function that lists
    the keys of a table, each once. *)
Definition dict_order : Type := gmap string ProcessReference -> list string.

Definition lists_keys (order : dict_order) : Prop :=
  forall t : gmap string ProcessReference,
    NoDup (order t) /\ forall k, k ∈ order t <-> is_Some (t !! k).

(** The keys in the order of the map itself: one iteration order among the
    possible ones. *)
Definition key_order : dict_order := fun t => (map_to_list t).*1.

(** The body of the [for] loop of [close_all_processes], over the keys of
    the copy that are still to come. *)
Fixpoint close_each (ks : list string) (pm : ProcessManager) (w : World)
  : res unit * ProcessManager * World :=
  match ks with
  | [] => (Ok tt, pm, w)
  | k :: rest =>
      match close_process k pm (log_info ("Closing " ++ k) w) with
      | (Ok _, pm1, w1) => close_each rest pm1 w1
      | (Raise e, pm1, w1) => (Raise e, pm1, w1)
      | (Block, pm1, w1) => (Block, pm1, w1)
      end
  end.

(** [ProcessManager.close_all_processes()] *)
Definition close_all_processes (order : dict_order) (pm : ProcessManager)
  (w : World) : res unit * ProcessManager * World :=
  close_each (order (ext_proc pm)) pm
    (log_debug ("Closing all processes in " ++ pm_name pm) w).

(** [ProcessManager.__enter__()] and [ProcessManager.__exit__(type, value,
    traceback)] *)
Definition ProcessManager_enter (pm : ProcessManager) : ProcessManager := pm.

Definition ProcessManager_exit (order : dict_order) (pm : ProcessManager)
  (w : World) : res unit * ProcessManager * World :=
  close_all_processes order pm w.

(** [pass_fn], which is also the body of the [sleep_fn] that the timed loop
    factories wrap: it does nothing and returns [None]. *)
Definition pass_fn : loop_fn := fun w => (Ok VNone, w).

(** A pacing function together with the loop object it closes over: the
    plain [pass_fn], [pass] wrapped by a timed loop, or [pass] wrapped by a
    synchronized timed loop.  The factories return the function and the
    object as a pair; both are the one mutable object here. *)
Inductive pacer :=
| PassFn
| Timed (tl : TimedLoop)
| Synced (stl : SynchronizedTimedLoop).

(** A call [sleep_fn()]. *)
Definition call_pacer (p : pacer) (w : World) : res pyval * pacer * World :=
  match p with
  | PassFn => let '(r, w1) := pass_fn w in (r, PassFn, w1)
  | Timed tl =>
      let '(r, tl1, w1) := TimedLoop_wrapper pass_fn tl w in (r, Timed tl1, w1)
  | Synced stl =>
      let '(r, stl1, w1) := SynchronizedTimedLoop_wrapper pass_fn stl w in
      (r, Synced stl1, w1)
  end.

(** [get_synchronized_timed_loop(control_loop_period, player,
    iterations_per_update=100)] *)
Definition get_synchronized_timed_loop (mem : option MemModule)
  (control_loop_period : Q) (player : pyobj) (iterations_per_update : Z)
  : res pacer :=
  match get_timestep_lookup_function_by_player mem control_loop_period
          player with
  | Ok lookup =>
      Ok (Synced (SynchronizedTimedLoop_init control_loop_period
                    iterations_per_update lookup))
  | Raise e => Raise e
  | Block => Block
  end.

(** [get_timed_loop(control_loop_period, synchronize, player=None,
    iterations_per_update=100)] *)
Definition get_timed_loop (mem : option MemModule) (control_loop_period : Q)
  (synchronize : bool) (player : pyobj) (iterations_per_update : Z)
  (w : World) : res pacer * World :=
  if synchronize then
    (get_synchronized_timed_loop mem control_loop_period player
       iterations_per_update, w)
  else
    (Ok (Timed (TimedLoop_init control_loop_period)),
     log_debug "un-timed loop" w).

(** A method of a messenger process that takes no argument. *)
Definition method : Type :=
  MessengerProcess -> World -> res pyval * MessengerProcess * World.

(** A class of messenger processes, as [create_process_fn] and [proc_loop]
    use one: its [__name__], its text when logged, its constructor applied
    to [name], [link_to_parent] and the remaining keyword arguments, and
    the three methods that subclasses overwrite. *)
Record MessengerClass := {
  class_name : string;
  class_repr : string;
  construct : string -> option nat -> gmap string pyval
              -> res MessengerProcess;
  on_setup : method;
  on_loop_routine : method;
  on_teardown : method
}.

(** The class [MessengerProcess] itself: its constructor takes no keyword
    argument besides [name] and [link_to_parent]. *)
Definition MessengerProcess_class : MessengerClass :=
  {| class_name := "MessengerProcess";
     class_repr := "<class 'ipc.messenger_process.MessengerProcess'>";
     construct := fun name link kwargs =>
       match map_to_list kwargs with
       | [] => Ok (MessengerProcess_init name link)
       | (k, _) :: _ =>
           Raise (TypeError ("__init__() got an unexpected keyword argument '"
                             ++ k ++ "'"))
       end;
     on_setup := setup;
     on_loop_routine := loop_routine;
     on_teardown := teardown |}.

(** The [while True] loop of [proc_loop].  [None] says that [fuel]
    iterations did not bring the loop to its end; otherwise the outcome is
    [Ok] when the loop was left by [break]. *)
Fixpoint proc_loop_while (fuel : nat) (cls : MessengerClass)
  (sleep_fn : option pacer) (m : MessengerProcess) (w : World)
  : option (res unit * MessengerProcess * option pacer * World) :=
  match fuel with
  | O => None
  | S fuel' =>
      match handle_messages None m w with
      | (Ok _, m1, w1) =>
          if should_stop_loop m1 then Some (Ok tt, m1, sleep_fn, w1)
          else
            match on_loop_routine cls m1 w1 with
            | (Ok _, m2, w2) =>
                match sleep_fn with
                | Some p =>
                    match call_pacer p w2 with
                    | (Ok _, p1, w3) =>
                        proc_loop_while fuel' cls (Some p1) m2 w3
                    | (Raise e, p1, w3) => Some (Raise e, m2, Some p1, w3)
                    | (Block, p1, w3) => Some (Block, m2, Some p1, w3)
                    end
                | None => proc_loop_while fuel' cls None m2 w2
                end
            | (Raise e, m2, w2) => Some (Raise e, m2, sleep_fn, w2)
            | (Block, m2, w2) => Some (Block, m2, sleep_fn, w2)
            end
      | (Raise e, m1, w1) => Some (Raise e, m1, sleep_fn, w1)
      | (Block, m1, w1) => Some (Block, m1, sleep_fn, w1)
      end
  end.

(** The block under [with m:] in [proc_loop]: [setup], the loop, then
    [teardown]. *)
Definition proc_loop_block (fuel : nat) (cls : MessengerClass)
  (sleep_fn : option pacer) (m : MessengerProcess) (w : World)
  : option (res unit * MessengerProcess * option pacer * World) :=
  match on_setup cls m w with
  | (Ok _, m1, w1) =>
      match proc_loop_while fuel cls sleep_fn m1 w1 with
      | Some (Ok _, m2, p2, w2) =>
          match on_teardown cls m2 w2 with
          | (r, m3, w3) => Some (shape r, m3, p2, w3)
          end
      | other => other
      end
  | (Raise e, m1, w1) => Some (Raise e, m1, sleep_fn, w1)
  | (Block, m1, w1) => Some (Block, m1, sleep_fn, w1)
  end.

(** [proc_loop(m, sleep_fn=None)].  Leaving the [with] block, normally or
    by an exception, runs [__exit__], which closes the children; an
    exception of the block then goes on to the caller, unless [__exit__]
    raises one of its own.  A block that never ends never reaches
    [__exit__]. *)
Definition proc_loop (fuel : nat) (order : dict_order) (cls : MessengerClass)
  (sleep_fn : option pacer) (m : MessengerProcess) (w : World)
  : option (res unit * MessengerProcess * option pacer * World) :=
  match proc_loop_block fuel cls sleep_fn m w with
  | None => None
  | Some (Block, m1, p1, w1) => Some (Block, m1, p1, w1)
  | Some (r, m1, p1, w1) =>
      match ProcessManager_exit order (base m1) w1 with
      | (Ok _, pm2, w2) =>
          match r with
          | Ok _ =>
              Some (Ok tt, with_base pm2 m1, p1,
                    log_debug (pm_name pm2 ++ " is exiting") w2)
          | _ => Some (r, with_base pm2 m1, p1, w2)
          end
      | (Raise e, pm2, w2) => Some (Raise e, with_base pm2 m1, p1, w2)
      | (Block, pm2, w2) => Some (Block, with_base pm2 m1, p1, w2)
      end
  end.

(** What [create_process_fn] returns: the function [process_fn] with the
    values it closes over. *)
Record process_fn_closure := {
  closed_proc_name : string;
  closed_class : MessengerClass;
  closed_sleep_fn : pacer
}.

(** [create_process_fn(msg_proc_class, proc_name=None,
    control_loop_period=None, synchronize=False, player=None)] *)
Definition create_process_fn (mem : option MemModule)
  (msg_proc_class : MessengerClass) (proc_name : option string)
  (control_loop_period : option Q) (synchronize : bool) (player : pyobj)
  (w : World) : res process_fn_closure * World :=
  let proc_name' :=
    match proc_name with
    | Some n => n
    | None => class_name msg_proc_class ++ "daemon"
    end in
  match control_loop_period with
  | Some period =>
      match get_timed_loop mem period synchronize player 100 w with
      | (Ok sleep_fn, w1) =>
          (Ok {| closed_proc_name := proc_name';
                 closed_class := msg_proc_class;
                 closed_sleep_fn := sleep_fn |}, w1)
      | (Raise e, w1) => (Raise e, w1)
      | (Block, w1) => (Block, w1)
      end
  | None =>
      (Ok {| closed_proc_name := proc_name';
             closed_class := msg_proc_class;
             closed_sleep_fn := PassFn |}, w)
  end.


(** A handler that, called with the fields [d], returns and leaves the
    queues of the channels alone. *)
Definition quiet_on (d : gmap string pyval) (fn : handler) : Prop :=
  forall w, exists v w', fn d w = (Ok v, w') /\ inbound w' = inbound w.

(** A world in which the children of the table [t] can all be closed, one
    after the other: each still holds its end of the channel open, the
    buffers have room for the stop sentinel, and no child exits while
    another one is being joined. *)
Definition children_alive (t : gmap string ProcessReference) (w : World)
  : Prop :=
  (forall k r, t !! k = Some r -> peer (link_to_child r) ∉ closed w)
  /\ (forall q, fits w q (PVal (VSig MP_TRANSPORT_STOP)) = true)
  /\ (forall k r k' r',
        t !! k = Some r -> t !! k' = Some r' -> k <> k' ->
        peer (link_to_child r) ∉ gone (join_result w (proc r') 1)).


(** A function to be paced that returns within [dmax] seconds, does not
    sleep through the loop's own primitive and leaves the platform as it
    is. *)
Definition takes_at_most (dmax : Q) (f : loop_fn) : Prop :=
  forall w, exists r w',
    f w = (Ok r, w')
    /\ (now w <= now w')%Q /\ (now w' <= now w + dmax)%Q
    /\ sleeps w' = sleeps w
    /\ sleep_limit w' = sleep_limit w
    /\ oversleep w' = oversleep w.


(** The functions [fs] called in turn through the wrapper of one timed
    loop, as far as the calls return. *)
Fixpoint run_paced (fs : list loop_fn) (self : TimedLoop) (w : World)
  : res unit * TimedLoop * World :=
  match fs with
  | [] => (Ok tt, self, w)
  | f :: rest =>
      match TimedLoop_wrapper f self w with
      | (Ok _, self1, w1) => run_paced rest self1 w1
      | (Raise e, self1, w1) => (Raise e, self1, w1)
      | (Block, self1, w1) => (Block, self1, w1)
      end
  end.

(** The class [cls] with its [teardown] overwritten. *)
Definition with_teardown (td : method) (cls : MessengerClass)
  : MessengerClass :=
  {| class_name := class_name cls; class_repr := class_repr cls;
     construct := construct cls; on_setup := on_setup cls;
     on_loop_routine := on_loop_routine cls; on_teardown := td |}.

(** * Properties *)

(** ** Process manager *)

Lemma ends_with_app (suffix p : string) : ends_with suffix (p ++ suffix) = true.
Proof.
  induction p as [|a p IH]; simpl.
  - destruct suffix; simpl; [done|].
    by rewrite Ascii.eqb_refl, String.eqb_refl.
  - destruct (String.eqb suffix (String a (p ++ suffix))); [done|exact IH].
Qed.

(** A name that is in the table: the process is started all the same, then
    the call raises and leaves the table as it was. *)
Lemma add_process_taken name' f daemon' args' kwargs' pm w :
  daemonic w = false ->
  is_Some (ext_proc pm !! name') ->
  exists e w',
    add_process name' f daemon' args' kwargs' pm w = (Raise e, pm, w')
    /\ is_AlreadyExists e = true
    /\ procs w' =
       (procs w ++
        [{| target := f; args := args';
            kwargs := <["link_to_parent" := VConn (2 * next_pipe w + 1)]>
                        kwargs';
            daemon := daemon'; exitcode := None |}])%list
    /\ next_pipe w' = S (next_pipe w).
Proof.
  intros Hd Hin. unfold add_process, Pipe, start. simpl. rewrite Hd.
  destruct (decide (is_Some (ext_proc pm !! name'))) as [_|Hn]; [|done].
  eexists _, _. split; [reflexivity|]. by repeat split.
Qed.

(** C1 (as the code behaves): adding the name ["child"] a second time to a
    manager raises the [RuntimeError] and leaves the child table unchanged,
    but only after a second process has been started; that process is
    running and no entry of the table refers to it. *)
Theorem add_process_duplicate_starts_process :
  let pm0 := ProcessManager_init "master" None in
  let '(r1, pm1, w1) :=
    add_process "child" "long_proc" false [] ∅ pm0 empty_world in
  let '(r2, pm2, w2) := add_process "child" "long_proc" false [] ∅ pm1 w1 in
  r1 = Ok tt
  /\ r2 = Raise (RuntimeError
                   "Attempted to add multiples of the same process: child")
  /\ pm2 = pm1
  /\ length (procs w1) = 1%nat
  /\ length (procs w2) = 2%nat
  /\ unmanaged pm1 w1 = []
  /\ unmanaged pm2 w2 = [1%nat].
Proof. vm_compute. repeat split; reflexivity. Qed.

(** C3 (as the code behaves): closing a name that is not in the table logs
    the first line, then the lookup of the name raises [KeyError]; the call
    does not return normally.  The handler around the deletion is never
    reached. *)
Theorem close_process_absent_raises name' pm w :
  ext_proc pm !! name' = None ->
  close_process name' pm w
  = (Raise (KeyError name'), pm, log_info ("Closing process " ++ name') w).
Proof. intros H. unfold close_process. by rewrite H. Qed.

Lemma close_process_absent_raises_witness :
  ext_proc (ProcessManager_init "master" None) !! "ghost" = None
  /\ close_process "ghost" (ProcessManager_init "master" None) empty_world
     = (Raise (KeyError "ghost"), ProcessManager_init "master" None,
        log_info "Closing process ghost" empty_world).
Proof.
  split; [reflexivity|].
  apply (close_process_absent_raises "ghost"
           (ProcessManager_init "master" None) empty_world).
  reflexivity.
Defined.

(** C9 (counterexample): a child manager is constructed with Python's [None]
    passed as its parent channel; the manager has no parent channel. *)
Lemma ChildManager_accepts_None :
  exists pm,
    ChildManager_init "child" (Some None) = Ok pm
    /\ link_to_parent pm = None.
Proof. eexists. split; reflexivity. Qed.

(** C9 (amended): the constructor of a child manager requires the argument
    [link_to_parent] to be passed, and a call that leaves it out is refused
    with [TypeError]; the value passed is not inspected, and becomes the
    parent channel of the manager whatever it is, [None] included. *)
Theorem ChildManager_init_requires_argument name' :
  (exists m, ChildManager_init name' None = Raise (TypeError m))
  /\ forall v,
       ChildManager_init name' (Some v) = Ok (ProcessManager_init name' v)
       /\ link_to_parent (ProcessManager_init name' v) = v
       /\ ext_proc (ProcessManager_init name' v) = ∅.
Proof. split; [by eexists|]. intros v. by repeat split. Qed.

(** C10: on a manager without a parent channel, [poll] and [recv] with no
    process name raise the [AttributeError] of an attribute looked up on
    [None], whatever the timeout, the table and the world; this is none of
    the documented failure kinds, and not an answer [False].  Only
    [_check_exit_condition] tests for the missing channel first, and raises
    [ValueError]. *)
Theorem root_poll_recv_unguarded pm timeout w :
  link_to_parent pm = None ->
  (exists e, poll None timeout pm w = Raise e
             /\ e = AttributeError "'NoneType' object has no attribute 'poll'"
             /\ documented_failure e = false)
  /\ (exists e, recv None pm w = (Raise e, w)
                /\ e = AttributeError
                         "'NoneType' object has no attribute 'recv'"
                /\ documented_failure e = false)
  /\ (exists e, _check_exit_condition pm w = (Raise e, pm, w)
                /\ is_InvalidArgument e = true).
Proof.
  intros H. unfold poll, recv, _check_exit_condition, connection_of.
  rewrite H. repeat split; eexists; repeat split; reflexivity.
Qed.

Lemma root_poll_recv_unguarded_witness :
  link_to_parent (ProcessManager_init "master" None) = None
  /\ poll None (Some 0%Q) (ProcessManager_init "master" None) empty_world
     = Raise (AttributeError "'NoneType' object has no attribute 'poll'").
Proof.
  split; [reflexivity|].
  destruct (root_poll_recv_unguarded (ProcessManager_init "master" None)
              (Some 0%Q) empty_world eq_refl)
    as [[e [Hp [He _]]] _].
  rewrite Hp, He. reflexivity.
Defined.

(** ** Messenger process *)

(** C5: for a dictionary whose ['type'] has a registered handler,
    [process_message] is the handler applied to the whole dictionary (every
    key and value, ['type'] included), so it returns what the handler
    returns; for a dictionary whose ['type'] has none, it raises the
    [AttributeError] of an unrecognized signal and returns no value. *)
Theorem process_message_dispatch self (d : gmap string pyval) ty w :
  d !! "type" = Some ty ->
  (forall fn, recognized_signals self !! ty = Some fn ->
     process_message (PDict d) self w = fn d w)
  /\ (recognized_signals self !! ty = None ->
      exists e w',
        process_message (PDict d) self w = (Raise e, w')
        /\ e = AttributeError (py_str ty ++ " is an unrecognized signal")
        /\ is_UnrecognizedSignal e = true
        /\ returns (Raise e : res pyval) = false).
Proof.
  intros Hty. unfold process_message. rewrite Hty. split.
  - intros fn Hfn. by rewrite Hfn.
  - intros Hnone.
    exists (AttributeError (py_str ty ++ " is an unrecognized signal")),
           (log_info ("received msg " ++ packet_str w (PDict d)) w).
    unfold handler in *. rewrite Hnone. repeat split. apply ends_with_app.
Qed.

(** The dispatch test of [tests.py]: [fn] registered under
    [MESSENGER_SIGNAL.A], the message [{'type': A, 'val': 5}] gives [5]; the
    same message under [MESSENGER_SIGNAL.B] is refused. *)
Lemma process_message_dispatch_witness :
  let m := add_signal (VSig MESSENGER_SIGNAL_A) fn_val
             (MessengerProcess_init "master" None) in
  let d := <["val" := VInt 5]> (Message (VSig MESSENGER_SIGNAL_A)) in
  let d' := <["val" := VInt 5]> (Message (VSig MESSENGER_SIGNAL_B)) in
  d !! "type" = Some (VSig MESSENGER_SIGNAL_A)
  /\ recognized_signals m !! VSig MESSENGER_SIGNAL_A = Some fn_val
  /\ process_message (PDict d) m empty_world = (Ok (VInt 5), empty_world)
  /\ recognized_signals m !! VSig MESSENGER_SIGNAL_B = None
  /\ exists e w',
       process_message (PDict d') m empty_world = (Raise e, w')
       /\ e = AttributeError "MESSENGER_SIGNAL.B is an unrecognized signal".
Proof.
  intros m d d'.
  assert (Hd : d !! "type" = Some (VSig MESSENGER_SIGNAL_A)) by reflexivity.
  assert (Hd' : d' !! "type" = Some (VSig MESSENGER_SIGNAL_B)) by reflexivity.
  assert (Hm : recognized_signals m !! VSig MESSENGER_SIGNAL_A = Some fn_val)
    by reflexivity.
  assert (Hn : recognized_signals m !! VSig MESSENGER_SIGNAL_B = None)
    by reflexivity.
  split; [exact Hd|]. split; [exact Hm|]. split.
  - rewrite (proj1 (process_message_dispatch m d _ empty_world Hd) fn_val Hm).
    reflexivity.
  - split; [exact Hn|].
    destruct (proj2 (process_message_dispatch m d' _ empty_world Hd') Hn)
      as (e & w' & Hp & He & _).
    exists e, w'. split; [exact Hp|exact He].
Defined.




(** What [handle_messages] does to the stop flag: it leaves it as it was,
    or sets it, and then the packet it received was the stop sentinel. *)
Lemma handle_messages_flag proc_name self w :
  should_stop (handle_messages proc_name self w).1.2 = should_stop self
  \/ (should_stop (handle_messages proc_name self w).1.2 = true
      /\ exists m, next_packet proc_name (base self) w = Some m
                   /\ msg_is_stop_signal m = true).
Proof.
  unfold handle_messages, there_is_a_new_message, poll, recv, next_packet,
    conn_poll, conn_recv.
  destruct (connection_of proc_name (base self)) as [[c|]|e|]; simpl;
    try (by left).
  destruct (waiting c w) as [|m rest]; simpl;
    [by destruct (decide (peer c ∈ closed w)); left|].
  destruct (msg_is_stop_signal m) eqn:Hstop; simpl.
  - right. split; [done|]. by exists m.
  - left. by destruct (process_message m self _) as [[v|e|] w2].
Qed.

Lemma get_messages_flag proc_name self w :
  should_stop (get_messages proc_name self w).1.2 = should_stop self.
Proof.
  unfold get_messages.
  destruct (there_is_a_new_message _ _ _ _) as [[|]|e|]; simpl; try done.
  by destruct (recv proc_name (base self) w).
Qed.

(** Every operation but [handle_messages] leaves the flag as it was. *)
Lemma run_op_flag op self w :
  should_stop (run_op op self w).1.2 = should_stop self
  \/ (should_stop (run_op op self w).1.2 = true
      /\ exists proc_name m,
           op = OpHandleMessages proc_name
           /\ next_packet proc_name (base self) w = Some m
           /\ msg_is_stop_signal m = true).
Proof.
  destruct op as [pn|m|pn|sg fn| | | | |kw]; simpl; try (by left).
  - destruct (handle_messages_flag pn self w) as [H|[H (m & Hm & Hs)]];
      destruct (handle_messages pn self w) as [[r s1] w1]; simpl in *.
    + by left.
    + right. split; [done|]. by exists pn, m.
  - left. by destruct (process_message m self w).
  - left. pose proof (get_messages_flag pn self w) as H.
    by destruct (get_messages pn self w) as [[r s1] w1].
  - left. unfold heartbeat. by destruct (kw !! "self").
Qed.

Lemma run_ops_keeps_flag ops : forall self w,
  should_stop self = true -> should_stop (run_ops ops self w).1 = true.
Proof.
  induction ops as [|op rest IH]; intros self w Hset; simpl; [done|].
  destruct (run_op_flag op self w) as [H|[H _]];
    destruct (run_op op self w) as [[r s1] w1]; simpl in *;
    apply IH; congruence.
Qed.

(** C8: the stop flag is false at construction; no operation of the class,
    and no sequence of them, takes it from true back to false; and an
    operation that takes it from false to true is a [handle_messages] that
    received the stop sentinel. *)
Theorem should_stop_monotone :
  (forall name' link, should_stop (MessengerProcess_init name' link) = false)
  /\ (forall op self w,
        should_stop self = true -> should_stop (run_op op self w).1.2 = true)
  /\ (forall ops self w,
        should_stop self = true -> should_stop (run_ops ops self w).1 = true)
  /\ (forall op self w,
        should_stop self = false ->
        should_stop (run_op op self w).1.2 = true ->
        exists proc_name m,
          op = OpHandleMessages proc_name
          /\ next_packet proc_name (base self) w = Some m
          /\ m = PVal (VSig MP_TRANSPORT_STOP)).
Proof.
  split; [done|]. split; [|split].
  - intros op self w Hset.
    destruct (run_op_flag op self w) as [H|[H _]]; congruence.
  - intros ops self w. apply run_ops_keeps_flag.
  - intros op self w Hclear Hset.
    destruct (run_op_flag op self w) as [H|[_ (pn & m & Hop & Hm & Hs)]];
      [congruence|].
    exists pn, m. repeat split; try done.
    destruct m as [[| | |s|]|]; try discriminate.
    destruct s; try discriminate. reflexivity.
Qed.

Lemma should_stop_monotone_witness :
  let self := MessengerProcess_init "kid" (Some 1%nat) in
  let w := with_inbound
             {[ 1%nat := [PVal (VSig MP_TRANSPORT_STOP);
                          PDict (Message (VSig MP_TRANSPORT_HEARTBEAT))] ]}
             empty_world in
  let ops := [OpHandleMessages None; OpHandleMessages None; OpSetup;
              OpLoopRoutine; OpGetMessages None; OpTeardown] in
  should_stop self = false
  /\ should_stop (run_op (OpHandleMessages None) self w).1.2 = true
  /\ should_stop
       (run_ops ops (run_op (OpHandleMessages None) self w).1.2
          (run_op (OpHandleMessages None) self w).2).1 = true.
Proof.
  intros self w ops.
  assert (H1 : should_stop (run_op (OpHandleMessages None) self w).1.2 = true)
    by reflexivity.
  split; [reflexivity|]. split; [exact H1|].
  exact (proj1 (proj2 (proj2 should_stop_monotone)) ops _ _ H1).
Defined.

(** ** Timed loops *)

(** The first condition of the builder holds for every player: when the
    comparison with [PLAYER.DXL] fails, the value of the disjunction is the
    member [PLAYER.BULLET], which is true. *)
Lemma first_condition_always player :
  truthy (py_or (eq_player player PLAYER_DXL) (OPlayer PLAYER_BULLET)) = true.
Proof.
  unfold py_or, eq_player. simpl.
  by destruct (bool_decide (player = OPlayer PLAYER_DXL)).
Qed.

(** C4 (as the code behaves): whatever the player, recognized or not, the
    builder takes its first branch.  It never raises [ValueError]: it
    raises [NameError] while [mem] is unbound, and with [mem] bound it
    returns the lookup function of the clock location, also for
    [PLAYER.VREP] and for values that are no player at all. *)
Theorem builder_never_rejects_player mem control_loop_period player :
  get_timestep_lookup_function_by_player mem control_loop_period player
  = match mem with
    | Some m =>
        Ok (_get_timestep_lookup_function control_loop_period (DATA_CLOCK m)
              "real_time_factor")
    | None => Raise (NameError "name 'mem' is not defined")
    end.
Proof.
  unfold get_timestep_lookup_function_by_player.
  by rewrite first_condition_always.
Qed.

(** The builder on Python's [None] and on a string, with the store bound. *)
Example builder_accepts_None :
  let m := {| DATA_CLOCK := "clock"; DATA_VREP := "vrep" |} in
  returns (get_timestep_lookup_function_by_player (Some m) (1 # 100)
             (OVal VNone)) = true
  /\ returns (get_timestep_lookup_function_by_player (Some m) (1 # 100)
                (OVal (VStr "gazebo"))) = true
  /\ get_timestep_lookup_function_by_player None (1 # 100) (OVal VNone)
     = Raise (NameError "name 'mem' is not defined").
Proof. repeat split; reflexivity. Qed.

(** The desired end time of the next call: the counter after the increment
    times the period, from the origin, which is the clock of the call if the
    loop has none yet. *)
Lemma schedule_eq self w :
  schedule self w
  = ((inject_Z (i self + 1) * dt self
      + default (perf_counter w) (init_time self))%Q,
     {| i := i self + 1; dt := dt self;
        init_time := Some (default (perf_counter w) (init_time self)) |}).
Proof. unfold schedule. simpl. by destruct (init_time self). Qed.

Lemma sleep_nonneg (x : Q) : (0 <= Qmax x 0)%Q.
Proof. apply Q.le_max_r. Qed.

(** A sleep of a length that is not negative and that the platform accepts
    returns, and the clock has then moved on by at least that length. *)
Lemma time_sleep_accepted secs w :
  (0 <= secs)%Q ->
  (secs <= sleep_limit w)%Q ->
  time_sleep secs w
  = (Ok tt,
     with_clock (now w + secs + Qmax (oversleep w (now w) secs) 0)%Q
       (secs :: sleeps w) w).
Proof.
  intros H0 Hl. unfold time_sleep.
  destruct (Qlt_le_dec secs 0) as [Hneg|_].
  - exfalso. exact (Qlt_not_le _ _ Hneg H0).
  - destruct (Qlt_le_dec (sleep_limit w) secs) as [Hbig|_]; [|reflexivity].
    exfalso. exact (Qlt_not_le _ _ Hbig Hl).
Qed.

(** A sleep of a length beyond what the platform accepts raises
    [OverflowError] and changes nothing. *)
Lemma time_sleep_overflow secs w :
  (0 <= secs)%Q ->
  (sleep_limit w < secs)%Q ->
  time_sleep secs w
  = (Raise (OverflowError "timestamp too large to convert to C _PyTime_t"),
     w).
Proof.
  intros H0 Hbig. unfold time_sleep.
  destruct (Qlt_le_dec secs 0) as [Hneg|_].
  - exfalso. exact (Qlt_not_le _ _ Hneg H0).
  - destruct (Qlt_le_dec (sleep_limit w) secs) as [_|Hsmall]; [reflexivity|].
    exfalso. exact (Qlt_not_le _ _ Hbig Hsmall).
Qed.

(** One call whose body returns and whose sleep the platform accepts. *)
Lemma TimedLoop_wrapper_call loop_func self w r w1 :
  loop_func w = (Ok r, w1) ->
  let t0 := default (perf_counter w) (init_time self) in
  let target := (inject_Z (i self + 1) * dt self + t0)%Q in
  let d := Qmax (target - perf_counter w1) 0 in
  (d <= sleep_limit w1)%Q ->
  TimedLoop_wrapper loop_func self w
  = (Ok r,
     {| i := i self + 1; dt := dt self; init_time := Some t0 |},
     with_clock (now w1 + d + Qmax (oversleep w1 (now w1) d) 0)%Q
       (d :: sleeps w1) w1).
Proof.
  intros Hbody t0 target d Hlimit.
  unfold TimedLoop_wrapper. rewrite schedule_eq, Hbody.
  fold t0. fold target. fold d.
  by rewrite time_sleep_accepted by (done || apply sleep_nonneg).
Qed.

(** Where the platform refuses the length of the sleep, the plain wrapper
    lets [OverflowError] through, with the counter already incremented. *)
Lemma TimedLoop_wrapper_overflow loop_func self w r w1 :
  loop_func w = (Ok r, w1) ->
  (sleep_limit w1 <
   Qmax (inject_Z (i self + 1) * dt self
         + default (perf_counter w) (init_time self) - perf_counter w1) 0)%Q ->
  TimedLoop_wrapper loop_func self w
  = (Raise (OverflowError "timestamp too large to convert to C _PyTime_t"),
     {| i := i self + 1; dt := dt self;
        init_time := Some (default (perf_counter w) (init_time self)) |},
     w1).
Proof.
  intros Hbody Hbig. unfold TimedLoop_wrapper.
  rewrite schedule_eq, Hbody.
  by rewrite time_sleep_overflow by (done || apply sleep_nonneg).
Qed.

(** The synchronized wrapper catches it: the sleep is skipped and reported
    in two lines on standard output, and nothing else changes. *)
Lemma guarded_sleep_overflow des_end_time current_time w :
  (sleep_limit w < Qmax (des_end_time - current_time) 0)%Q ->
  exists l1 l2,
    guarded_sleep des_end_time current_time w
    = (Ok tt, with_stdout (stdout w ++ [l1; l2])%list w).
Proof.
  intros Hbig. unfold guarded_sleep.
  rewrite time_sleep_overflow by (done || apply sleep_nonneg).
  eexists _, _. unfold print, with_stdout. simpl.
  by rewrite <- app_assoc.
Qed.

(** Where the platform accepts the length, the guarded sleep is the
    sleep. *)
Lemma guarded_sleep_accepted des_end_time current_time w :
  (Qmax (des_end_time - current_time) 0 <= sleep_limit w)%Q ->
  guarded_sleep des_end_time current_time w
  = time_sleep (Qmax (des_end_time - current_time) 0) w.
Proof.
  intros Hl. unfold guarded_sleep.
  by rewrite time_sleep_accepted by (done || apply sleep_nonneg).
Qed.

Lemma inject_Z_succ_nat (n : nat) :
  (inject_Z (Z.of_nat (S n)) == inject_Z (Z.of_nat n) + 1)%Q.
Proof. rewrite Nat2Z.inj_succ, <- Z.add_1_r, inject_Z_plus. reflexivity. Qed.

Lemma inject_Z_of_nat_nonneg (n : nat) : (0 <= inject_Z (Z.of_nat n))%Q.
Proof.
  change 0%Q with (inject_Z 0). rewrite <- Zle_Qle. apply Nat2Z.is_nonneg.
Qed.

(** C7 (counterexample): a loop whose period is longer than the longest
    sleep the platform accepts.  The call through the plain wrapper raises
    [OverflowError] after the body has run; the same call through the
    synchronized wrapper returns the result of the body, without having
    slept, and goes on to resynchronize. *)
Lemma SynchronizedTimedLoop_guards_overflow :
  let lookup : lookup_fn := fun w => (Ok (1 # 10)%Q, w) in
  let self := SynchronizedTimedLoop_init (10000000000 # 1) 1 lookup in
  (TimedLoop_wrapper (busy 0) (loop self) empty_world).1.1
  = Raise (OverflowError "timestamp too large to convert to C _PyTime_t")
  /\ (SynchronizedTimedLoop_wrapper (busy 0) self empty_world).1
     = (Ok VNone,
        with_loop {| i := 0; dt := 1 # 10; init_time := None |} self)
  /\ sleeps (SynchronizedTimedLoop_wrapper (busy 0) self empty_world).2 = []
  /\ length (stdout (SynchronizedTimedLoop_wrapper (busy 0) self
                       empty_world).2) = 2%nat.
Proof. vm_compute. repeat split; reflexivity. Qed.

(** C7 (amended): a call through the synchronized wrapper, set against the
    same call through the plain wrapper.  Both increment the counter, set
    the origin if it was absent and run the body; an outcome of the body
    that is not a return is the outcome of both.  After a body that returned
    [r] both attempt the same sleep.  Where the sleep is done, the plain
    wrapper returns [r] and the synchronized one goes on from the same
    state.  Where the sleep raises [OverflowError], the plain wrapper lets
    it through, while the synchronized one catches it, prints two lines and
    goes on as if the sleep had been done.  Any other outcome of the sleep
    is the outcome of both.  Going on means: if and only if the counter has
    reached [iterations_per_update], the lookup function is called and its
    answer installed as [change_dt] does (counter 0, origin absent, the new
    period); then [r] is returned.  An error of the lookup function passes
    through, with the loop as the sleep step left it. *)
Theorem SynchronizedTimedLoop_wrapper_spec loop_func self w :
  let plain := TimedLoop_wrapper loop_func (loop self) w in
  let synced := SynchronizedTimedLoop_wrapper loop_func self w in
  let t0 := default (perf_counter w) (init_time (loop self)) in
  let tl1 := {| i := i (loop self) + 1; dt := dt (loop self);
                init_time := Some t0 |} in
  let target := (inject_Z (i (loop self) + 1) * dt (loop self) + t0)%Q in
  let go_on r w2 :=
    if (iterations_per_update self <=? i (loop self) + 1)%Z then
      match timestep_lookup_fn self w2 with
      | (Ok desired_dt, w3) =>
          (Ok r,
           with_loop {| i := 0; dt := desired_dt; init_time := None |} self,
           w3)
      | (Raise e, w3) => (Raise e, with_loop tl1 self, w3)
      | (Block, w3) => (Block, with_loop tl1 self, w3)
      end
    else (Ok r, with_loop tl1 self, w2) in
  match loop_func w with
  | (Ok r, w1) =>
      match time_sleep (Qmax (target - perf_counter w1) 0) w1 with
      | (Ok _, w2) => plain = (Ok r, tl1, w2) /\ synced = go_on r w2
      | (Raise (OverflowError m), w2) =>
          plain = (Raise (OverflowError m), tl1, w2)
          /\ exists l1 l2,
               synced = go_on r (with_stdout (stdout w2 ++ [l1; l2])%list w2)
      | (Raise e, w2) =>
          plain = (Raise e, tl1, w2)
          /\ synced = (Raise e, with_loop tl1 self, w2)
      | (Block, w2) =>
          plain = (Block, tl1, w2) /\ synced = (Block, with_loop tl1 self, w2)
      end
  | (Raise e, w1) =>
      plain = (Raise e, tl1, w1) /\ synced = (Raise e, with_loop tl1 self, w1)
  | (Block, w1) =>
      plain = (Block, tl1, w1) /\ synced = (Block, with_loop tl1 self, w1)
  end.
Proof.
  intros plain synced t0 tl1 target go_on.
  unfold plain, synced, TimedLoop_wrapper, SynchronizedTimedLoop_wrapper,
    guarded_sleep, synchronize.
  rewrite schedule_eq. fold t0. fold target. fold tl1.
  destruct (loop_func w) as [[r|e|] w1]; [|by split|by split].
  destruct (time_sleep _ w1) as [[u|e|] w2] eqn:Hsleep.
  - split; [reflexivity|]. unfold go_on. cbn [with_loop loop i
      iterations_per_update timestep_lookup_fn tl1].
    destruct (iterations_per_update self <=? i (loop self) + 1)%Z;
      [|reflexivity].
    by destruct (timestep_lookup_fn self w2) as [[q|e|] w3].
  - destruct e; try (by split).
    split; [reflexivity|].
    eexists _, _. unfold go_on, print, with_stdout.
    cbn [with_loop loop i iterations_per_update timestep_lookup_fn tl1
         stdout inbound closed fits next_pipe procs daemonic join_result
         log now sleeps sleep_limit oversleep memory pid dict_text].
    rewrite <- app_assoc. cbn [app].
    destruct (iterations_per_update self <=? i (loop self) + 1)%Z;
      [|reflexivity].
    by destruct (timestep_lookup_fn self _) as [[q|e|] w3].
  - by split.
Qed.

(** The resynchronization test of the suite in small: the tenth call of a
    loop with interval 10 sleeps, then installs the period the lookup
    function answers; and the call of the counterexample, whose sleep the
    platform refuses. *)
Lemma SynchronizedTimedLoop_wrapper_spec_witness :
  let lookup : lookup_fn := fun w => (Ok (1 # 10)%Q, w) in
  let self := {| loop := {| i := 9; dt := 1 # 20; init_time := Some 0%Q |};
                 iterations_per_update := 10;
                 timestep_lookup_fn := lookup |} in
  (SynchronizedTimedLoop_wrapper (busy 0) self empty_world).1
  = (Ok VNone, with_loop {| i := 0; dt := 1 # 10; init_time := None |} self)
  /\ (TimedLoop_wrapper (busy 0) (loop self) empty_world).1
     = (Ok VNone, {| i := 10; dt := 1 # 20; init_time := Some 0%Q |}).
Proof.
  intros lookup self.
  pose proof (SynchronizedTimedLoop_wrapper_spec (busy 0) self empty_world)
    as H.
  cbv zeta in H.
  destruct (busy 0 empty_world) as [[r|e|] w1] eqn:Hbody;
    [|discriminate Hbody|discriminate Hbody].
  injection Hbody as <- <-.
  destruct (time_sleep _ _) as [[u|e|] w2] eqn:Hsleep;
    [|discriminate Hsleep|discriminate Hsleep].
  destruct H as [Hplain Hsync]. rewrite Hplain, Hsync. split; reflexivity.
Defined.

(** C2 (as the code behaves): a timed loop with a strictly positive period
    whose next target lies further ahead than the longest sleep the
    platform accepts.  The call through its wrapper runs the body, then the
    sleep raises [OverflowError] and the wrapper lets it through: the
    result of the body is not returned, although the counter has been
    incremented and the origin set.  The synchronized wrapper, on the same
    loop and the same call, catches the error and returns the result. *)
Theorem TimedLoop_wrapper_overflow_raises loop_func self w r w1 :
  (0 < dt self)%Q ->
  loop_func w = (Ok r, w1) ->
  let t0 := default (perf_counter w) (init_time self) in
  let target := (inject_Z (i self + 1) * dt self + t0)%Q in
  (sleep_limit w1 < Qmax (target - perf_counter w1) 0)%Q ->
  TimedLoop_wrapper loop_func self w
  = (Raise (OverflowError "timestamp too large to convert to C _PyTime_t"),
     {| i := i self + 1; dt := dt self; init_time := Some t0 |}, w1)
  /\ returns (TimedLoop_wrapper loop_func self w).1.1 = false
  /\ forall N lookup,
       (i self + 1 < N)%Z ->
       (SynchronizedTimedLoop_wrapper loop_func
          {| loop := self; iterations_per_update := N;
             timestep_lookup_fn := lookup |} w).1.1 = Ok r.
Proof.
  intros _ Hbody t0 target Hbig.
  rewrite (TimedLoop_wrapper_overflow loop_func self w r w1 Hbody Hbig).
  split; [reflexivity|]. split; [reflexivity|].
  intros N lookup HN. unfold SynchronizedTimedLoop_wrapper.
  rewrite schedule_eq. cbn [loop]. rewrite Hbody.
  destruct (guarded_sleep_overflow _ _ w1 Hbig) as (l1 & l2 & Hg).
  unfold target, t0 in Hg. rewrite Hg. cbn [with_loop loop i iterations_per_update].
  by rewrite (proj2 (Z.leb_gt _ _) HN).
Qed.

(** A loop of period [1e10] seconds around a function that returns at
    once, on a platform that accepts sleeps of up to [2^63] nanoseconds. *)
Lemma TimedLoop_wrapper_overflow_raises_witness :
  let self := TimedLoop_init (10000000000 # 1) in
  (0 < dt self)%Q
  /\ (TimedLoop_wrapper (busy 0) self empty_world).1
     = (Raise (OverflowError "timestamp too large to convert to C _PyTime_t"),
        {| i := 0 + 1; dt := 10000000000 # 1; init_time := Some 0%Q |})
  /\ sleeps (TimedLoop_wrapper (busy 0) self empty_world).2 = [].
Proof.
  intros self.
  assert (Hdt : (0 < dt self)%Q) by reflexivity.
  split; [exact Hdt|].
  destruct (TimedLoop_wrapper_overflow_raises (busy 0) self empty_world VNone
              (with_clock (0 + 0)%Q [] empty_world) Hdt eq_refl)
    as [Hcall _]; [reflexivity|].
  rewrite Hcall. split; reflexivity.
Defined.

(** The catch-up test of the suite, with sleeps that take exactly their
    length: period [0.02], bodies of [0], [0.03] and [0] seconds; the loop
    sleeps [0.02], then nothing, then [0.01] (the most recent sleep comes
    first). *)
Example TimedLoop_catch_up :
  map Qred (sleeps (run_loop [0; 3 # 100; 0]%Q (TimedLoop_init (1 # 50))
                      empty_world))
  = [1 # 100; 0; 1 # 50]%Q.
Proof. vm_compute. reflexivity. Qed.

(** * Further properties *)

(** ** Channels *)

Lemma peer_even (k : nat) : peer (2 * k) = (2 * k + 1)%nat.
Proof. unfold peer. rewrite Nat.even_mul. simpl. lia. Qed.

(** The two ends of a pipe are each other's peer. *)
Lemma peer_involutive (c : nat) : peer (peer c) = c.
Proof.
  unfold peer. destruct (Nat.even c) eqn:E.
  - rewrite Nat.even_succ, <- Nat.negb_even, E. reflexivity.
  - destruct c as [|c]; [discriminate|]. simpl Nat.pred.
    rewrite Nat.even_succ, <- Nat.negb_even in E.
    apply negb_false_iff in E. by rewrite E.
Qed.

Lemma peer_ne (c : nat) : peer c <> c.
Proof.
  unfold peer. destruct (Nat.even c) eqn:E; [lia|].
  destruct c; [discriminate|]. simpl. lia.
Qed.

(** A send to an end that is open, through a buffer that has room. *)
Lemma conn_send_open (c : nat) (p : packet) (w : World) :
  peer c ∉ closed w ->
  fits w (waiting (peer c) w) p = true ->
  conn_send c p w
  = (Ok tt,
     with_inbound (<[peer c := (waiting (peer c) w ++ [p])%list]> (inbound w))
       w).
Proof.
  intros Hopen Hfits. unfold conn_send.
  rewrite decide_False by done. by rewrite Hfits.
Qed.

(** A send to an end that is closed. *)
Lemma conn_send_closed (c : nat) (p : packet) (w : World) :
  peer c ∈ closed w ->
  conn_send c p w = (Raise (BrokenPipeError "[Errno 32] Broken pipe"), w).
Proof. intros Hc. unfold conn_send. by rewrite decide_True by done. Qed.

(** A send that finds no room. *)
Lemma conn_send_full (c : nat) (p : packet) (w : World) :
  peer c ∉ closed w ->
  fits w (waiting (peer c) w) p = false ->
  conn_send c p w = (Block, w).
Proof.
  intros Hopen Hfits. unfold conn_send.
  rewrite decide_False by done. by rewrite Hfits.
Qed.

Lemma waiting_insert (c c0 : nat) (q : list packet) (w : World) :
  waiting c (with_inbound (<[c0 := q]> (inbound w)) w)
  = if decide (c = c0) then q else waiting c w.
Proof.
  unfold waiting. simpl. destruct (decide (c = c0)) as [->|Hne].
  - by rewrite lookup_insert_eq.
  - by rewrite lookup_insert_ne.
Qed.

(** What a join changes: the clock, which does not go back, the exit code
    of the process joined, and the set of closed ends, which grows by no
    more than the ends the world says were closed in the meantime. *)
Lemma join_spec (h : nat) (t : Q) (w : World) :
  inbound (join h t w) = inbound w
  /\ fits (join h t w) = fits w
  /\ join_result (join h t w) = join_result w
  /\ closed w ⊆ closed (join h t w)
  /\ closed (join h t w) ⊆ closed w ∪ gone (join_result w h t)
  /\ (now w <= now (join h t w))%Q
  /\ log (join h t w) = log w
  /\ stdout (join h t w) = stdout w
  /\ sleeps (join h t w) = sleeps w
  /\ daemonic (join h t w) = daemonic w
  /\ length (procs (join h t w)) = length (procs w)
  /\ (forall h', h' <> h -> procs (join h t w) !! h' = procs w !! h').
Proof.
  unfold join. destruct (procs w !! h) as [p|] eqn:Hp.
  - destruct (exitcode p).
    + repeat split; try done; try set_solver. apply Qle_refl.
    + simpl. repeat split; try done; try set_solver.
      * pose proof (sleep_nonneg (waited (join_result w h t))). lra.
      * by rewrite length_insert.
      * intros h' Hne. by rewrite list_lookup_insert_ne.
  - repeat split; try done; try set_solver. apply Qle_refl.
Qed.

(** ** Process manager *)

(** [add_process] on a free name in a process that is no daemon, as an
    equation. *)
Lemma add_process_fresh name' f daemon' args' kwargs' pm w :
  daemonic w = false ->
  ext_proc pm !! name' = None ->
  add_process name' f daemon' args' kwargs' pm w
  = (Ok tt,
     with_ext_proc
       (<[name' := {| name := name'; link_to_child := 2 * next_pipe w;
                      proc := length (procs w) |}]> (ext_proc pm)) pm,
     with_procs
       (procs w ++
        [{| target := f; args := args';
            kwargs := <["link_to_parent" := VConn (2 * next_pipe w + 1)]>
                        kwargs';
            daemon := daemon'; exitcode := None |}])%list
       (with_closed
          (closed w ∖ {[ (2 * next_pipe w)%nat; (2 * next_pipe w + 1)%nat ]})
          (with_next_pipe (S (next_pipe w)) w))).
Proof.
  intros Hd Hfree. unfold add_process, Pipe, start.
  cbn -[Nat.mul Nat.add peer]. rewrite Hd.
  by destruct (decide (is_Some (ext_proc pm !! name'))) as [[x Hx]|_];
    [congruence|].
Qed.

(** X1: in a process that is no daemon, adding a process under a name that
    is free returns normally and registers a reference under that name,
    leaving the other names as they were.  The reference names the process
    just started, which runs [f] with the given arguments; its keyword
    argument [link_to_parent] is the other end of the channel whose end the
    reference keeps, whatever the caller passed under that key, and the
    other keyword arguments are the caller's.  Both ends of the channel are
    open and no packet is waiting anywhere that was not before.  In a
    daemonic process the call raises the [AssertionError] of
    [Process.start]: no process is started and nothing is registered. *)
Theorem add_process_registers name' f daemon' args' kwargs' pm w :
  ext_proc pm !! name' = None ->
  if daemonic w then
    exists m w',
      add_process name' f daemon' args' kwargs' pm w
      = (Raise (AssertionError m), pm, w')
      /\ procs w' = procs w
      /\ inbound w' = inbound w
  else
    exists r p w',
      add_process name' f daemon' args' kwargs' pm w
      = (Ok tt, with_ext_proc (<[name' := r]> (ext_proc pm)) pm, w')
      /\ name r = name'
      /\ proc r = length (procs w)
      /\ procs w' = (procs w ++ [p])%list
      /\ target p = f /\ args p = args' /\ daemon p = daemon'
      /\ kwargs p !! "link_to_parent" = Some (VConn (peer (link_to_child r)))
      /\ (forall k, k <> "link_to_parent" -> kwargs p !! k = kwargs' !! k)
      /\ (link_to_child r ∉ closed w')
      /\ (peer (link_to_child r) ∉ closed w')
      /\ inbound w' = inbound w.
Proof.
  intros Hfree. destruct (daemonic w) eqn:Hd.
  - unfold add_process, Pipe, start. cbn -[Nat.mul Nat.add peer].
    rewrite Hd. by eexists _, _.
  - rewrite (add_process_fresh _ _ _ _ _ _ _ Hd Hfree).
    eexists _, _, _. split; [reflexivity|]. cbn -[Nat.mul Nat.add peer].
    split; [done|]. split; [done|]. split; [done|]. split; [done|].
    split; [done|]. split; [done|]. split; [|split; [|split; [|split]]].
    + cbn [kwargs]. by rewrite lookup_insert_eq, peer_even.
    + intros k Hk. cbn [kwargs]. by rewrite lookup_insert_ne.
    + intros [_ Hn]%elem_of_difference. apply Hn.
      apply elem_of_union_l. by apply elem_of_singleton.
    + rewrite peer_even. intros [_ Hn]%elem_of_difference. apply Hn.
      apply elem_of_union_r. by apply elem_of_singleton.
    + done.
Qed.

Lemma add_process_registers_witness :
  ext_proc (ProcessManager_init "master" None) !! "child" = None
  /\ (exists pm' w',
        add_process "child" "long_proc" false []
          {[ "link_to_parent" := VInt 7 ]}
          (ProcessManager_init "master" None) empty_world = (Ok tt, pm', w')
        /\ (kwargs <$> procs w' !! 0%nat)
           = Some {[ "link_to_parent" := VConn 1 ]})
  /\ exists m w',
       add_process "child" "long_proc" false [] ∅
         (ProcessManager_init "master" None) (with_daemonic true empty_world)
       = (Raise (AssertionError m), ProcessManager_init "master" None, w').
Proof.
  split; [reflexivity|]. split.
  - pose proof (add_process_registers "child" "long_proc" false []
                  {[ "link_to_parent" := VInt 7 ]}
                  (ProcessManager_init "master" None) empty_world eq_refl)
      as H.
    change (daemonic empty_world) with false in H. cbv iota in H.
    destruct H as (r & p & w' & Hadd & _).
    rewrite Hadd. eexists _, _. split; [reflexivity|].
    vm_compute in Hadd. injection Hadd as _ <-. reflexivity.
  - pose proof (add_process_registers "child" "long_proc" false [] ∅
                  (ProcessManager_init "master" None)
                  (with_daemonic true empty_world) eq_refl) as H.
    change (daemonic (with_daemonic true empty_world)) with true in H.
    cbv iota in H. destruct H as (m & w' & Hadd & _). by exists m, w'.
Defined.

(** Closing a name that is in the table, whose child has its end of the
    channel open, through a buffer that has room: the outcome, the table
    and the world afterwards. *)
Lemma close_process_present name' pm w r :
  ext_proc pm !! name' = Some r ->
  peer (link_to_child r) ∉ closed w ->
  fits w (waiting (peer (link_to_child r)) w) (PVal (VSig MP_TRANSPORT_STOP))
  = true ->
  exists w',
    close_process name' pm w
    = (Ok tt, with_ext_proc (delete name' (ext_proc pm)) pm, w')
    /\ waiting (peer (link_to_child r)) w'
       = (waiting (peer (link_to_child r)) w
          ++ [PVal (VSig MP_TRANSPORT_STOP)])%list
    /\ (forall c, c <> peer (link_to_child r) -> waiting c w' = waiting c w)
    /\ fits w' = fits w
    /\ join_result w' = join_result w
    /\ closed w ⊆ closed w'
    /\ closed w' ⊆ closed w ∪ gone (join_result w (proc r) 1)
    /\ (now w <= now w')%Q
    /\ stdout w' = stdout w
    /\ length (procs w') = length (procs w)
    /\ (forall h, h <> proc r -> procs w' !! h = procs w !! h)
    /\ last (log w')
       = Some (INFO, "proc " ++ name' ++ " exited with code "
                     ++ exitcode_str (proc r) w').
Proof.
  intros Hr Hopen Hfits. unfold close_process. rewrite Hr.
  rewrite conn_send_open by done.
  set (w2 := with_inbound _ _).
  destruct (join_spec (proc r) 1 w2)
    as (Hin & Hf & Hj & Hc1 & Hc2 & Hnow & Hlog & Hout & _ & _ & Hlen & Hoth).
  eexists. split; [reflexivity|].
  assert (Hw : forall c, waiting c (join (proc r) 1 w2) = waiting c w2).
  { intros c. unfold waiting. by rewrite Hin. }
  split; [|split; [|split; [|split; [|split; [|split; [|split; [|split;
    [|split; [|split]]]]]]]]].
  - change (waiting (peer (link_to_child r)) (join (proc r) 1 w2)
            = (waiting (peer (link_to_child r)) w
               ++ [PVal (VSig MP_TRANSPORT_STOP)])%list).
    rewrite Hw. unfold w2. rewrite waiting_insert.
    by rewrite decide_True by done.
  - intros c Hc.
    change (waiting c (join (proc r) 1 w2) = waiting c w).
    rewrite Hw. unfold w2. rewrite waiting_insert.
    by rewrite decide_False by done.
  - exact Hf.
  - exact Hj.
  - exact Hc1.
  - exact Hc2.
  - exact Hnow.
  - exact Hout.
  - exact Hlen.
  - exact Hoth.
  - cbn [log log_info with_log]. by rewrite last_snoc.
Qed.



(** X3: in a process that is no daemon, adding a process under a free name
    and closing it later, while the child still holds its end of the
    channel and the buffer has room, gives back the manager as it was, with
    the stop sentinel sent to the child.  If the child has exited by then,
    the close raises [BrokenPipeError] and the name stays in the table.
    After a close that returned, a second close of the name raises
    [KeyError], and the name can be added again. *)
Theorem add_then_close name' f daemon' args' kwargs' pm w :
  ext_proc pm !! name' = None ->
  daemonic w = false ->
  let c := (2 * next_pipe w + 1)%nat in
  let stop := PVal (VSig MP_TRANSPORT_STOP) in
  exists pm1 w1,
    add_process name' f daemon' args' kwargs' pm w = (Ok tt, pm1, w1)
    /\ (forall w', c ∉ closed w' -> fits w' (waiting c w') stop = true ->
          exists w2,
            close_process name' pm1 w' = (Ok tt, pm, w2)
            /\ waiting c w2 = (waiting c w' ++ [stop])%list)
    /\ (forall w', c ∈ closed w' ->
          exists m,
            close_process name' pm1 w'
            = (Raise (BrokenPipeError m), pm1,
               log_info ("Closing process " ++ name') w'))
    /\ (forall w', (close_process name' pm w').1.1 = Raise (KeyError name'))
    /\ (forall w', daemonic w' = false ->
          (add_process name' f daemon' args' kwargs' pm w').1.1 = Ok tt).
Proof.
  intros Hfree Hd c stop. rewrite (add_process_fresh _ _ _ _ _ _ _ Hd Hfree).
  set (r := {| name := name'; link_to_child := 2 * next_pipe w;
               proc := length (procs w) |}).
  set (pm1 := with_ext_proc (<[name' := r]> (ext_proc pm)) pm).
  assert (Hr : ext_proc pm1 !! name' = Some r)
    by (unfold pm1; simpl; apply lookup_insert_eq).
  assert (Hc : peer (link_to_child r) = c)
    by (unfold r, c; cbn [link_to_child]; apply peer_even).
  assert (Hback : with_ext_proc (delete name' (ext_proc pm1)) pm1 = pm).
  { unfold pm1, with_ext_proc. simpl.
    rewrite delete_insert_id by done. by destruct pm. }
  eexists pm1, _. split; [reflexivity|]. split; [|split; [|split]].
  - intros w' Hopen Hfits.
    destruct (close_process_present name' pm1 w' r Hr) as (w2 & Hclose & Hq & _).
    + by rewrite Hc.
    + by rewrite Hc.
    + rewrite Hback in Hclose. rewrite Hc in Hq. by exists w2.
  - intros w' Hclosed. unfold close_process. rewrite Hr.
    rewrite conn_send_closed by (by rewrite Hc). by eexists.
  - intros w'. unfold close_process. by rewrite Hfree.
  - intros w' Hd'. by rewrite (add_process_fresh _ _ _ _ _ _ _ Hd' Hfree).
Qed.

Lemma add_then_close_witness :
  ext_proc (ProcessManager_init "master" None) !! "child" = None
  /\ daemonic empty_world = false
  /\ exists pm1 w1 w2,
       add_process "child" "long_proc" false [] ∅
         (ProcessManager_init "master" None) empty_world = (Ok tt, pm1, w1)
       /\ close_process "child" pm1 w1
          = (Ok tt, ProcessManager_init "master" None, w2).
Proof.
  split; [reflexivity|]. split; [reflexivity|].
  destruct (add_then_close "child" "long_proc" false [] ∅
              (ProcessManager_init "master" None) empty_world eq_refl eq_refl)
    as (pm1 & w1 & Ha & Hclose & _).
  assert (Ha' := Ha). vm_compute in Ha'. injection Ha' as _ Hw.
  destruct (Hclose w1) as (w2 & Hc & _);
    [rewrite <- Hw; by vm_compute|by rewrite <- Hw|].
  by exists pm1, w1, w2.
Defined.

(** What [close_process] never does: it touches no name of the table but
    the one it is given, it reopens no channel end, and unless it returns
    it leaves the manager as it was. *)
Lemma close_process_frame name' pm w :
  (forall k, k <> name' ->
     ext_proc (close_process name' pm w).1.2 !! k = ext_proc pm !! k)
  /\ closed w ⊆ closed (close_process name' pm w).2
  /\ ((close_process name' pm w).1.1 <> Ok tt ->
      (close_process name' pm w).1.2 = pm).
Proof.
  unfold close_process. destruct (ext_proc pm !! name') as [r|] eqn:Hr.
  - set (w1 := log_info ("Closing process " ++ name') w).
    destruct (decide (peer (link_to_child r) ∈ closed w1)) as [Hc|Hc];
      [rewrite conn_send_closed by exact Hc; by repeat split|].
    destruct (fits w1 (waiting (peer (link_to_child r)) w1)
                (PVal (VSig MP_TRANSPORT_STOP))) eqn:Hf;
      [rewrite conn_send_open by done
      |rewrite conn_send_full by done; by repeat split].
    set (w2 := with_inbound _ _).
    destruct (join_spec (proc r) 1 w2) as (_ & _ & _ & Hc1 & _).
    cbn [fst snd]. split; [|split].
    + intros k Hk. cbn [ext_proc with_ext_proc].
      by rewrite lookup_delete_ne.
    + exact Hc1.
    + done.
  - by repeat split.
Qed.

(** The world that [close_process] leaves keeps the platform as it was. *)
Lemma children_alive_after name' pm w r w' :
  children_alive (ext_proc pm) w ->
  ext_proc pm !! name' = Some r ->
  fits w' = fits w ->
  join_result w' = join_result w ->
  closed w' ⊆ closed w ∪ gone (join_result w (proc r) 1) ->
  children_alive (delete name' (ext_proc pm)) w'.
Proof.
  intros (Hopen & Hfits & Hstay) Hr Hf Hj Hc. split; [|split].
  - intros k r0 Hk.
    apply lookup_delete_Some in Hk as [Hne Hk].
    intros Hin. apply Hc in Hin. apply elem_of_union in Hin as [Hin|Hin].
    + by apply (Hopen k r0).
    + by apply (Hstay k r0 name' r).
  - intros q. rewrite Hf. apply Hfits.
  - intros k r0 k' r0' Hk Hk' Hne. rewrite Hj.
    apply lookup_delete_Some in Hk as [_ Hk].
    apply lookup_delete_Some in Hk' as [_ Hk'].
    by apply (Hstay k r0 k' r0').
Qed.

(** The loop of [close_all_processes] over names that are all in the table,
    each once, in a world in which the children can all be closed: it comes
    to its end, removes exactly these names, sends the stop sentinel to
    each of their children and removes no packet from any queue. *)
Lemma close_each_spec ks : forall pm w,
  NoDup ks ->
  (forall k, k ∈ ks -> is_Some (ext_proc pm !! k)) ->
  children_alive (ext_proc pm) w ->
  exists pm' w',
    close_each ks pm w = (Ok tt, pm', w')
    /\ pm_name pm' = pm_name pm
    /\ link_to_parent pm' = link_to_parent pm
    /\ msg pm' = msg pm
    /\ (forall k, ext_proc pm' !! k
                  = if decide (k ∈ ks) then None else ext_proc pm !! k)
    /\ (forall k r, k ∈ ks -> ext_proc pm !! k = Some r ->
          PVal (VSig MP_TRANSPORT_STOP) ∈ waiting (peer (link_to_child r)) w')
    /\ (forall c p, p ∈ waiting c w -> p ∈ waiting c w')
    /\ (forall c,
          waiting c w'
          = (waiting c w
             ++ replicate
                  (length (filter (fun k => (peer ∘ link_to_child)
                                            <$> ext_proc pm !! k = Some c)
                                  ks))
                  (PVal (VSig MP_TRANSPORT_STOP)))%list)
    /\ (now w <= now w')%Q.
Proof.
  induction ks as [|k ks IH]; intros pm w Hnd Hin Halive.
  - exists pm, w. simpl. split; [done|]. repeat split; try done.
    + intros k r Hk. by apply elem_of_nil in Hk.
    + intros c. by rewrite app_nil_r.
    + apply Qle_refl.
  - apply NoDup_cons in Hnd as [Hk Hnd].
    destruct (Hin k) as [r Hr]; [by left|].
    destruct Halive as (Hopen & Hfits & Hstay).
    destruct (close_process_present k pm (log_info ("Closing " ++ k) w) r Hr)
      as (w1 & Hclose & Hq & Hother & Hf & Hj & _ & Hc & Hnow & _).
    { by apply (Hopen k r). }
    { apply Hfits. }
    simpl close_each. rewrite Hclose.
    destruct (IH (with_ext_proc (delete k (ext_proc pm)) pm) w1 Hnd)
      as (pm' & w' & Heach & Hn & Hl & Hm & Htab & Hstop & Hkeep & Hcount
          & Hnow').
    { intros k' Hk'. cbn [ext_proc with_ext_proc].
      rewrite lookup_delete_ne by (intros ->; done). apply Hin. by right. }
    { cbn [ext_proc with_ext_proc].
      by apply (children_alive_after k pm (log_info ("Closing " ++ k) w) r). }
    assert (Hsame : forall (c : nat) (l : list string), k ∉ l ->
              filter (fun k0 => (peer ∘ link_to_child)
                                <$> ext_proc (with_ext_proc
                                                (delete k (ext_proc pm)) pm)
                                    !! k0 = Some c) l
              = filter (fun k0 => (peer ∘ link_to_child) <$> ext_proc pm !! k0
                                  = Some c) l).
    { intros c l. induction l as [|a l IHl]; intros Ha; [done|].
      apply not_elem_of_cons in Ha as [Hne Ha].
      rewrite !filter_cons, IHl by done. cbn [ext_proc with_ext_proc].
      by rewrite lookup_delete_ne by done. }
    exists pm', w'. split; [exact Heach|].
    split; [done|]. split; [done|]. split; [done|].
    split; [|split; [|split; [|split]]].
    + intros k'. rewrite Htab. cbn [ext_proc with_ext_proc].
      destruct (decide (k' = k)) as [->|Hne].
      * rewrite lookup_delete_eq.
        destruct (decide (k ∈ ks)); [done|].
        by rewrite decide_True by (by left).
      * rewrite lookup_delete_ne by done.
        destruct (decide (k' ∈ ks)) as [Hi|Hni].
        -- by rewrite decide_True by (by right).
        -- rewrite decide_False; [done|].
           intros [->|Hi]%elem_of_cons; done.
    + intros k' r' [->|Hk']%elem_of_cons Hr'.
      * assert (r' = r) as -> by congruence.
        apply Hkeep. rewrite Hq. apply elem_of_app. right. by left.
      * apply (Hstop k' r' Hk'). cbn [ext_proc with_ext_proc].
        rewrite lookup_delete_ne; [done|]. intros ->. done.
    + intros c p Hp'. apply Hkeep.
      destruct (decide (c = peer (link_to_child r))) as [->|Hne].
      * rewrite Hq. apply elem_of_app. by left.
      * by rewrite Hother.
    + intros c. rewrite Hcount, (Hsame c ks Hk). rewrite filter_cons, Hr.
      cbn [fmap option_fmap option_map compose].
      destruct (decide (Some (peer (link_to_child r)) = Some c)) as [Heq|Hne].
      * injection Heq as <-. rewrite Hq. cbn [length replicate].
        by rewrite <- app_assoc.
      * rewrite Hother; [done|]. intros ->. done.
    + change (now w) with (now (log_info ("Closing " ++ k) w)). lra.
Qed.

(** A child of the table whose end of the channel is closed stops the loop
    of [close_all_processes]: whatever the names gone through before it,
    the loop does not come to its end, and the name of that child stays in
    the table. *)
Lemma close_each_dead k r ks : forall pm w,
  k ∈ ks ->
  ext_proc pm !! k = Some r ->
  peer (link_to_child r) ∈ closed w ->
  (close_each ks pm w).1.1 <> Ok tt
  /\ ext_proc (close_each ks pm w).1.2 !! k = Some r.
Proof.
  induction ks as [|k0 ks IH]; intros pm w Hin Hr Hdead.
  - by apply elem_of_nil in Hin.
  - simpl close_each.
    set (w0 := log_info ("Closing " ++ k0) w).
    destruct (decide (k0 = k)) as [->|Hne].
    + unfold close_process. rewrite Hr.
      rewrite conn_send_closed by exact Hdead. by split.
    + destruct (close_process_frame k0 pm w0) as (Htab & Hcl & Hsame).
      destruct (close_process k0 pm w0) as [[[u|e|] pm1] w1] eqn:Hclose;
        cbn [fst snd] in *.
      * apply IH.
        -- apply elem_of_cons in Hin as [->|Hin]; [done|exact Hin].
        -- rewrite Htab by done. exact Hr.
        -- apply Hcl. exact Hdead.
      * split; [done|]. rewrite Hsame by done. exact Hr.
      * split; [done|]. rewrite Hsame by done. exact Hr.
Qed.

(** [close_all_processes] for one order of going through the table, in a
    world in which the children can all be closed. *)
Lemma close_all_processes_closes order pm w :
  lists_keys order ->
  children_alive (ext_proc pm) w ->
  exists w',
    close_all_processes order pm w = (Ok tt, with_ext_proc ∅ pm, w')
    /\ (forall k r, ext_proc pm !! k = Some r ->
          PVal (VSig MP_TRANSPORT_STOP) ∈ waiting (peer (link_to_child r)) w')
    /\ (forall c p, p ∈ waiting c w -> p ∈ waiting c w')
    /\ (forall c,
          waiting c w'
          = (waiting c w
             ++ replicate
                  (length (filter (fun k => (peer ∘ link_to_child)
                                            <$> ext_proc pm !! k = Some c)
                                  (order (ext_proc pm))))
                  (PVal (VSig MP_TRANSPORT_STOP)))%list)
    /\ (now w <= now w')%Q.
Proof.
  intros Horder Halive. destruct (Horder (ext_proc pm)) as [Hnd Hkeys].
  unfold close_all_processes.
  destruct (close_each_spec (order (ext_proc pm)) pm
              (log_debug ("Closing all processes in " ++ pm_name pm) w) Hnd)
    as (pm' & w' & Heach & Hn & Hl & Hm & Htab & Hstop & Hkeep & Hcount
        & Hnow).
  { intros k Hk. by apply Hkeys. }
  { exact Halive. }
  assert (Hpm : pm' = with_ext_proc ∅ pm).
  { destruct pm', pm. unfold with_ext_proc. simpl in *. subst. f_equal.
    apply map_eq. intros k. rewrite Htab, lookup_empty.
    destruct (decide _) as [|Hni]; [done|].
    destruct (_ !! k) eqn:E; [|done].
    exfalso. apply Hni, Hkeys. by eexists. }
  subst pm'. exists w'. split; [exact Heach|].
  split; [|split; [|split]].
  - intros k r Hr. apply (Hstop k r); [|done]. apply Hkeys. by eexists.
  - exact Hkeep.
  - exact Hcount.
  - exact Hnow.
Qed.

(** X4: [close_all_processes], whatever the order in which the table is
    gone through.  In a world in which the children can all be closed (each
    still holds its end of the channel, the buffers have room for the stop
    sentinel, no child exits while another is joined), it returns normally
    and leaves the table empty; every child that was in the table has the
    stop sentinel in its queue; no packet is taken from any queue, and the
    queue of a channel end that belongs to no child of the table is
    unchanged, so that a process that is running without an entry in the
    table is sent nothing; and another order gives the same outcome, the
    same manager and the same content of every queue.  But if a child of
    the table has its end of the channel closed (it has exited), the call
    does not return normally, in any order, and the name of that child
    stays in the table. *)
Theorem close_all_processes_spec order order' pm w :
  lists_keys order ->
  lists_keys order' ->
  (children_alive (ext_proc pm) w ->
   exists w',
     close_all_processes order pm w = (Ok tt, with_ext_proc ∅ pm, w')
     /\ (forall k r, ext_proc pm !! k = Some r ->
           PVal (VSig MP_TRANSPORT_STOP)
           ∈ waiting (peer (link_to_child r)) w')
     /\ (forall c p, p ∈ waiting c w -> p ∈ waiting c w')
     /\ (forall c,
           (forall k r, ext_proc pm !! k = Some r ->
              c <> peer (link_to_child r)) ->
           waiting c w' = waiting c w)
     /\ (close_all_processes order' pm w).1 = (Ok tt, with_ext_proc ∅ pm)
     /\ (forall c, waiting c (close_all_processes order' pm w).2
                   = waiting c w'))
  /\ (forall k r,
        ext_proc pm !! k = Some r ->
        peer (link_to_child r) ∈ closed w ->
        (close_all_processes order pm w).1.1 <> Ok tt
        /\ ext_proc (close_all_processes order pm w).1.2 !! k = Some r).
Proof.
  intros Horder Horder'. split.
  - intros Halive.
    destruct (close_all_processes_closes order pm w Horder Halive)
      as (w1 & Hrun & Hstop & Hkeep & Hcount & _).
    destruct (close_all_processes_closes order' pm w Horder' Halive)
      as (w2 & Hrun' & _ & _ & Hcount' & _).
    destruct (Horder (ext_proc pm)) as [Hnd Hkeys].
    destruct (Horder' (ext_proc pm)) as [Hnd' Hkeys'].
    exists w1. split; [exact Hrun|]. split; [exact Hstop|].
    split; [exact Hkeep|]. split; [|split].
    + intros c Hc. rewrite Hcount.
      assert (Hnil : forall l : list string,
                filter (fun k => (peer ∘ link_to_child) <$> ext_proc pm !! k
                                 = Some c) l = []).
      { induction l as [|a l IHl]; [done|]. rewrite filter_cons.
        destruct (decide _) as [Heq|_]; [|exact IHl]. exfalso.
        destruct (ext_proc pm !! a) as [r|] eqn:E; [|done].
        injection Heq as Heq. by apply (Hc a r). }
      rewrite Hnil. apply app_nil_r.
    + by rewrite Hrun'.
    + intros c. rewrite Hrun'. cbn [snd]. rewrite Hcount, Hcount'.
      do 2 f_equal. apply Permutation_length, filter_Permutation.
      apply NoDup_Permutation; [done|done|].
      intros k. by rewrite Hkeys, Hkeys'.
  - intros k r Hr Hdead. unfold close_all_processes.
    apply (close_each_dead k r); [|exact Hr|exact Hdead].
    destruct (Horder (ext_proc pm)) as [_ Hkeys]. apply Hkeys. by eexists.
Qed.

Lemma key_order_lists_keys : lists_keys key_order.
Proof.
  intros t. split; [apply NoDup_fst_map_to_list|].
  intros k. unfold key_order. rewrite list_elem_of_fmap. split.
  - intros [[k' r] [-> Hin]]. apply elem_of_map_to_list in Hin. by eexists.
  - intros [r Hr]. exists (k, r). split; [done|].
    by apply elem_of_map_to_list.
Qed.

Lemma close_all_processes_spec_witness :
  let a := {| name := "a"; link_to_child := 0; proc := 0 |} in
  let b := {| name := "b"; link_to_child := 2; proc := 1 |} in
  let pm := with_ext_proc {[ "a" := a; "b" := b ]}
              (ProcessManager_init "master" None) in
  let backwards : dict_order := fun t => reverse (key_order t) in
  let b_exited := with_closed {[ 3%nat ]} empty_world in
  lists_keys key_order
  /\ lists_keys backwards
  /\ children_alive (ext_proc pm) empty_world
  /\ (exists w',
        close_all_processes key_order pm empty_world
        = (Ok tt, ProcessManager_init "master" None, w')
        /\ PVal (VSig MP_TRANSPORT_STOP) ∈ waiting 1 w'
        /\ PVal (VSig MP_TRANSPORT_STOP) ∈ waiting 3 w'
        /\ waiting 3 (close_all_processes backwards pm empty_world).2
           = waiting 3 w')
  /\ (close_all_processes key_order pm b_exited).1.1 <> Ok tt
  /\ ext_proc (close_all_processes key_order pm b_exited).1.2 !! "b" = Some b.
Proof.
  intros a b pm backwards b_exited.
  assert (Hback : lists_keys backwards).
  { intros t. destruct (key_order_lists_keys t) as [Hnd Hkeys].
    split; [unfold backwards; by rewrite reverse_Permutation|].
    intros k. unfold backwards. by rewrite elem_of_reverse. }
  assert (Halive : children_alive (ext_proc pm) empty_world).
  { split; [|split]; [intros k r _|done|intros k r k' r' _ _ _];
      cbn [closed gone join_result empty_world]; apply not_elem_of_empty. }
  split; [exact key_order_lists_keys|]. split; [exact Hback|].
  split; [exact Halive|].
  destruct (close_all_processes_spec key_order backwards pm empty_world
              key_order_lists_keys Hback) as [Hok _].
  destruct (close_all_processes_spec key_order backwards pm b_exited
              key_order_lists_keys Hback) as [_ Hdead].
  split.
  - destruct (Hok Halive) as (w' & Hc & Hstop & _ & _ & _ & Hsame).
    exists w'. split; [exact Hc|]. split; [|split].
    + apply (Hstop "a" a). reflexivity.
    + apply (Hstop "b" b). reflexivity.
    + apply Hsame.
  - apply (Hdead "b" b); [reflexivity|].
    change (3%nat ∈ ({[ 3%nat ]} : gset nat)). by apply elem_of_singleton.
Defined.

(** X7: the outcomes of [send].  A send of [None] is refused with
    [ValueError] whatever the target, even a name that is not in the table:
    the message is looked at first.  A send with no process name on a
    manager without a parent channel is refused with [ValueError], not with
    the error of an attribute looked up on [None]: the missing channel is
    tested for.  A send to a name that is not in the table raises
    [KeyError].  Otherwise the outcome is that of the channel: the call
    raises [BrokenPipeError] when the other end is closed, blocks when the
    buffer has no room, and else returns with the packet put at the back of
    the queue of the other end and nothing else done.  A send that does not
    return changes nothing. *)
Theorem send_outcomes proc_name m pm w :
  (m = PVal VNone ->
   send proc_name m pm w = (Raise (ValueError "Must send a message"), w))
  /\ (m <> PVal VNone ->
      match connection_of proc_name pm with
      | Ok (Some c) => send proc_name m pm w = conn_send c m w
      | Ok None =>
          send proc_name m pm w
          = (Raise (ValueError "send() defaults to sending up to parent."),
             w)
      | Raise e =>
          send proc_name m pm w = (Raise e, w) /\ is_NotFound e = true
      | Block => False
      end)
  /\ (forall e, (send proc_name m pm w).1 = Raise e ->
        (send proc_name m pm w).2 = w
        /\ (is_InvalidArgument e = true \/ is_NotFound e = true
            \/ exists c t,
                 connection_of proc_name pm = Ok (Some c)
                 /\ (peer c ∈ closed w) /\ e = BrokenPipeError t))
  /\ ((send proc_name m pm w).1 = Block ->
      (send proc_name m pm w).2 = w
      /\ exists c,
           connection_of proc_name pm = Ok (Some c)
           /\ (peer c ∉ closed w)
           /\ fits w (waiting (peer c) w) m = false)
  /\ ((send proc_name m pm w).1 = Ok tt ->
      m <> PVal VNone
      /\ exists c,
           connection_of proc_name pm = Ok (Some c)
           /\ (peer c ∉ closed w)
           /\ (send proc_name m pm w).2
              = with_inbound
                  (<[peer c := (waiting (peer c) w ++ [m])%list]> (inbound w))
                  w).
Proof.
  assert (Hconn : forall c,
            ((conn_send c m w).1 = Ok tt ->
             (peer c ∉ closed w)
             /\ (conn_send c m w).2
                = with_inbound
                    (<[peer c := (waiting (peer c) w ++ [m])%list]>
                       (inbound w)) w)
            /\ (forall e, (conn_send c m w).1 = Raise e ->
                  (conn_send c m w).2 = w
                  /\ (peer c ∈ closed w) /\ exists t, e = BrokenPipeError t)
            /\ ((conn_send c m w).1 = Block ->
                (conn_send c m w).2 = w /\ (peer c ∉ closed w)
                /\ fits w (waiting (peer c) w) m = false)).
  { intros c. unfold conn_send.
    destruct (decide (peer c ∈ closed w)) as [Hc|Hc].
    - split; [done|]. split; [|done]. intros e [= <-]. by eauto.
    - destruct (fits w (waiting (peer c) w) m) eqn:Hf; by repeat split. }
  unfold send, connection_of.
  destruct (decide (m = PVal VNone)) as [->|Hm].
  - split; [done|]. split; [done|]. split; [|done].
    intros e [= <-]. split; [done|by left].
  - split; [done|].
    destruct proc_name as [n|].
    + destruct (ext_proc pm !! n) as [r|]; cbn [fst snd].
      * destruct (Hconn (link_to_child r)) as (Hok & Hraise & Hblock).
        split; [done|]. split; [|split].
        -- intros e He. destruct (Hraise e He) as (Hw & Hc & t & ->).
           split; [done|]. right. right. by eexists _, _.
        -- intros Hb. destruct (Hblock Hb) as (Hw & Hc & Hf).
           split; [done|]. by eexists.
        -- intros Ho. destruct (Hok Ho) as (Hc & Hw).
           split; [done|]. by eexists.
      * split; [done|]. split; [|done].
        intros e [= <-]. split; [done|]. right. by left.
    + destruct (link_to_parent pm) as [c|]; cbn [fst snd].
      * destruct (Hconn c) as (Hok & Hraise & Hblock).
        split; [done|]. split; [|split].
        -- intros e He. destruct (Hraise e He) as (Hw & Hc & t & ->).
           split; [done|]. right. right. by eexists _, _.
        -- intros Hb. destruct (Hblock Hb) as (Hw & Hc & Hf).
           split; [done|]. by eexists.
        -- intros Ho. destruct (Hok Ho) as (Hc & Hw).
           split; [done|]. by eexists.
      * split; [done|]. split; [|done].
        intros e [= <-]. split; [done|by left].
Qed.

Lemma send_outcomes_witness :
  send None (PVal (VStr "timeout")) (ProcessManager_init "master" None)
    empty_world
  = (Raise (ValueError "send() defaults to sending up to parent."),
     empty_world)
  /\ send (Some "nobody") (PVal VNone) (ProcessManager_init "master" None)
       empty_world
     = (Raise (ValueError "Must send a message"), empty_world).
Proof.
  split.
  - apply (proj1 (proj2 (send_outcomes None (PVal (VStr "timeout"))
                           (ProcessManager_init "master" None) empty_world))).
    discriminate.
  - exact (proj1 (send_outcomes (Some "nobody") (PVal VNone)
                    (ProcessManager_init "master" None) empty_world)
             eq_refl).
Defined.

(** X8: a packet is the stop signal exactly when it is the bare member
    [MP_TRANSPORT.STOP]: no other member, and no message whose ['type'] is
    [MP_TRANSPORT.STOP], counts as one. *)
Theorem msg_is_stop_signal_iff (m : packet) :
  msg_is_stop_signal m = true <-> m = PVal (VSig MP_TRANSPORT_STOP).
Proof.
  split.
  - destruct m as [[| | |s|]|d]; try discriminate.
    by destruct s.
  - by intros ->.
Qed.

Example stop_message_is_no_stop_signal :
  msg_is_stop_signal (PDict (Message (VSig MP_TRANSPORT_STOP))) = false
  /\ msg_is_stop_signal (PVal (VSig MP_TRANSPORT_HEARTBEAT)) = false
  /\ msg_is_stop_signal (PVal (VStr "MP_TRANSPORT.STOP")) = false.
Proof. repeat split; reflexivity. Qed.



(** ** Messenger process *)

(** X10: registering a handler changes the dispatch of the messages of that
    signal and of no other: the handler registered last answers, in place
    of any earlier one, and every other type is dispatched as before.  The
    stop flag and the manager underneath are untouched. *)
Theorem add_signal_dispatch signal fn self (d : gmap string pyval) ty w :
  d !! "type" = Some ty ->
  process_message (PDict d) (add_signal signal fn self) w
  = (if decide (ty = signal) then fn d w
     else process_message (PDict d) self w)
  /\ should_stop (add_signal signal fn self) = should_stop self
  /\ base (add_signal signal fn self) = base self.
Proof.
  intros Hty. split; [|done].
  unfold process_message, add_signal. rewrite Hty. simpl.
  destruct (decide (ty = signal)) as [->|Hne].
  - by rewrite lookup_insert_eq.
  - by rewrite lookup_insert_ne.
Qed.

Lemma add_signal_dispatch_witness :
  let d := <["val" := VInt 5]> (Message (VSig MESSENGER_SIGNAL_A)) in
  let first : handler := fun _ w => (Ok (VStr "first"), w) in
  let self := add_signal (VSig MESSENGER_SIGNAL_A) first
                (MessengerProcess_init "master" None) in
  d !! "type" = Some (VSig MESSENGER_SIGNAL_A)
  /\ process_message (PDict d) self empty_world
     = (Ok (VStr "first"), empty_world)
  /\ process_message (PDict d)
       (add_signal (VSig MESSENGER_SIGNAL_A) fn_val self) empty_world
     = (Ok (VInt 5), empty_world).
Proof.
  intros d first self.
  assert (Hd : d !! "type" = Some (VSig MESSENGER_SIGNAL_A)) by reflexivity.
  split; [exact Hd|]. split; [reflexivity|].
  rewrite (proj1 (add_signal_dispatch (VSig MESSENGER_SIGNAL_A) fn_val self
                    d _ empty_world Hd)).
  reflexivity.
Defined.

(** The handler a messenger process is constructed with. *)
Lemma fresh_process_handlers name' link ty :
  recognized_signals (MessengerProcess_init name' link) !! ty
  = if decide (ty = VSig MP_TRANSPORT_HEARTBEAT) then Some (heartbeat name')
    else None.
Proof.
  unfold MessengerProcess_init, add_signal.
  cbn [recognized_signals with_recognized_signals with_should_stop].
  destruct (decide (ty = VSig MP_TRANSPORT_HEARTBEAT)) as [->|Hne].
  - by rewrite lookup_insert_eq.
  - rewrite lookup_insert_ne by done. apply lookup_empty.
Qed.

(** X11: a messenger process as constructed answers the heartbeat and
    nothing else.  A message of type [MP_TRANSPORT.HEARTBEAT] that has no
    field named [self], whatever other fields it carries, returns [None]
    and writes one line to the log with the name of the process and its
    pid.  With a field named [self] it raises [TypeError], because the
    handler is a bound method.  A message of any other type is refused as
    an unrecognized signal.  None of this touches the channels. *)
Theorem fresh_process_answers_heartbeat_only name' link
  (d : gmap string pyval) ty w :
  d !! "type" = Some ty ->
  let out := process_message (PDict d) (MessengerProcess_init name' link) w in
  (ty = VSig MP_TRANSPORT_HEARTBEAT -> d !! "self" = None ->
   out = (Ok VNone,
          log_info ("HEARTBEAT: " ++ name' ++ " " ++ pretty (pid w)) w))
  /\ (ty = VSig MP_TRANSPORT_HEARTBEAT -> is_Some (d !! "self") ->
      exists m, out = (Raise (TypeError m), w))
  /\ (ty <> VSig MP_TRANSPORT_HEARTBEAT ->
      exists e, out.1 = Raise e /\ is_UnrecognizedSignal e = true)
  /\ inbound out.2 = inbound w.
Proof.
  intros Hty out. unfold out, process_message. rewrite Hty.
  unfold handler in *. rewrite fresh_process_handlers.
  destruct (decide (ty = VSig MP_TRANSPORT_HEARTBEAT)) as [->|Hne].
  - unfold heartbeat. destruct (d !! "self") as [v|] eqn:Hself.
    + split; [done|]. split; [by eexists|]. by split.
    + split; [done|]. split; [by intros _ [v Hv]|]. by split.
  - split; [done|]. split; [done|]. split; [|done].
    intros _. eexists. split; [reflexivity|]. apply ends_with_app.
Qed.

Lemma fresh_process_answers_heartbeat_only_witness :
  let d := <["seq" := VInt 3]> (Message (VSig MP_TRANSPORT_HEARTBEAT)) in
  d !! "type" = Some (VSig MP_TRANSPORT_HEARTBEAT)
  /\ d !! "self" = None
  /\ process_message (PDict d) (MessengerProcess_init "kid" (Some 1%nat))
       empty_world
     = (Ok VNone, log_info "HEARTBEAT: kid 1" empty_world).
Proof.
  intros d.
  assert (Hd : d !! "type" = Some (VSig MP_TRANSPORT_HEARTBEAT))
    by reflexivity.
  assert (Hs : d !! "self" = None) by reflexivity.
  split; [exact Hd|]. split; [exact Hs|].
  destruct (fresh_process_answers_heartbeat_only "kid" (Some 1%nat) d _
              empty_world Hd) as (Hp & _).
  rewrite (Hp eq_refl Hs). reflexivity.
Defined.



(** ** The standard run loop *)

(** One turn of the loop on a message whose handler is quiet: the message is
    taken, dispatched, and the loop goes on with the rest of the queue. *)
Lemma handle_messages_quiet m w c (d : gmap string pyval) ty fn rest :
  link_to_parent (base m) = Some c ->
  waiting c w = PDict d :: rest ->
  d !! "type" = Some ty ->
  recognized_signals m !! ty = Some fn ->
  quiet_on d fn ->
  exists w', handle_messages None m w = (Ok true, m, w')
             /\ waiting c w' = rest.
Proof.
  intros Hc Hq Hty Hfn Hquiet.
  unfold handle_messages, there_is_a_new_message, poll, recv, connection_of,
    conn_poll, conn_recv.
  rewrite Hc, Hq. cbn [msg_is_stop_signal].
  unfold process_message. rewrite Hty. unfold handler in *. rewrite Hfn.
  destruct (Hquiet (with_inbound (<[c:=rest]> (inbound w)) w))
    as (v & w' & Hcall & Hin).
  rewrite Hcall. exists w'. split; [reflexivity|].
  unfold waiting. rewrite Hin. simpl. by rewrite lookup_insert_eq.
Qed.

(** The loop on a queue of messages with quiet handlers, then the stop
    sentinel: it is left by [break] after as many turns plus one, with the
    flag set and the rest of the queue untouched. *)
Lemma proc_loop_while_stops (ms : list packet) : forall m w c rest sleep_fn,
  sleep_fn = None \/ sleep_fn = Some PassFn ->
  link_to_parent (base m) = Some c ->
  should_stop m = false ->
  Forall (fun p => exists (d : gmap string pyval) ty fn,
            p = PDict d /\ d !! "type" = Some ty
            /\ recognized_signals m !! ty = Some fn /\ quiet_on d fn) ms ->
  waiting c w = (ms ++ PVal (VSig MP_TRANSPORT_STOP) :: rest)%list ->
  exists w',
    proc_loop_while (S (length ms)) MessengerProcess_class sleep_fn m w
    = Some (Ok tt, with_should_stop true m, sleep_fn, w')
    /\ waiting c w' = rest.
Proof.
  induction ms as [|p ms IH]; intros m w c rest sleep_fn Hp Hc Hflag Hms Hq.
  - simpl in Hq. cbn [length proc_loop_while].
    unfold handle_messages, there_is_a_new_message, poll, recv,
      connection_of, conn_poll, conn_recv.
    rewrite Hc, Hq. cbn [msg_is_stop_signal enum_of]. simpl.
    eexists. split; [reflexivity|].
    unfold waiting. simpl. by rewrite lookup_insert_eq.
  - apply Forall_cons in Hms as [(d & ty & fn & -> & Hty & Hfn & Hquiet) Hms].
    simpl in Hq.
    destruct (handle_messages_quiet m w c d ty fn _ Hc Hq Hty Hfn Hquiet)
      as (w1 & Hh & Hq1).
    cbn [length]. cbn [proc_loop_while]. rewrite Hh.
    unfold should_stop_loop. rewrite Hflag.
    cbn [on_loop_routine MessengerProcess_class loop_routine].
    destruct Hp as [->| ->].
    + apply (IH m w1 c rest None); auto.
    + cbn [call_pacer pass_fn]. apply (IH m w1 c rest (Some PassFn)); auto.
Qed.

(** The loop over an empty table closes nothing. *)
Lemma close_all_processes_leaf order pm w :
  lists_keys order ->
  ext_proc pm = ∅ ->
  close_all_processes order pm w
  = (Ok tt, pm,
     log_debug ("Closing all processes in " ++ pm_name pm) w).
Proof.
  intros Horder Hleaf. unfold close_all_processes. rewrite Hleaf.
  destruct (Horder ∅) as [_ Hkeys].
  destruct (order ∅) as [|k l] eqn:E; [reflexivity|].
  destruct (proj1 (Hkeys k)) as [r Hr]; [by left|].
  by rewrite lookup_empty in Hr.
Qed.

(** X13: the standard run loop ends on the stop sentinel.  For a messenger
    process of the base class that has a parent channel and no children,
    with the flag clear and a queue that holds messages whose handlers are
    registered, return and leave the queues alone, followed by the stop
    sentinel, [proc_loop] without pacing, or paced by [pass_fn], returns
    normally after one turn per message and one for the sentinel: the flag
    is set and nothing else of the process has changed, and what followed
    the sentinel has not been read. *)
Theorem proc_loop_stops_on_sentinel order (ms : list packet) m w c rest
  sleep_fn :
  lists_keys order ->
  sleep_fn = None \/ sleep_fn = Some PassFn ->
  link_to_parent (base m) = Some c ->
  ext_proc (base m) = ∅ ->
  should_stop m = false ->
  Forall (fun p => exists (d : gmap string pyval) ty fn,
            p = PDict d /\ d !! "type" = Some ty
            /\ recognized_signals m !! ty = Some fn /\ quiet_on d fn) ms ->
  waiting c w = (ms ++ PVal (VSig MP_TRANSPORT_STOP) :: rest)%list ->
  exists w',
    proc_loop (S (length ms)) order MessengerProcess_class sleep_fn m w
    = Some (Ok tt, with_should_stop true m, sleep_fn, w')
    /\ waiting c w' = rest.
Proof.
  intros Horder Hp Hc Hleaf Hflag Hms Hq.
  destruct (proc_loop_while_stops ms m w c rest sleep_fn Hp Hc Hflag Hms Hq)
    as (w1 & Hloop & Hq1).
  unfold proc_loop, proc_loop_block.
  cbn [on_setup on_teardown MessengerProcess_class setup teardown].
  rewrite Hloop. cbn [shape].
  unfold ProcessManager_exit.
  rewrite (close_all_processes_leaf order _ w1 Horder) by exact Hleaf.
  eexists. split; [by destruct m|]. exact Hq1.
Qed.

Lemma quiet_on_heartbeat self_name (d : gmap string pyval) :
  d !! "self" = None -> quiet_on d (heartbeat self_name).
Proof. intros Hs w. unfold heartbeat. rewrite Hs. by eexists _, _. Qed.

Lemma proc_loop_stops_on_sentinel_witness :
  let m := MessengerProcess_init "kid" (Some 1%nat) in
  let hb := PDict (Message (VSig MP_TRANSPORT_HEARTBEAT)) in
  let w := with_inbound
             {[ 1%nat := [hb; hb; PVal (VSig MP_TRANSPORT_STOP); hb] ]}
             empty_world in
  lists_keys key_order
  /\ waiting 1 w = ([hb; hb] ++ PVal (VSig MP_TRANSPORT_STOP) :: [hb])%list
  /\ exists w',
       proc_loop 3 key_order MessengerProcess_class (Some PassFn) m w
       = Some (Ok tt, with_should_stop true m, Some PassFn, w')
       /\ waiting 1 w' = [hb].
Proof.
  intros m hb w. split; [exact key_order_lists_keys|].
  split; [reflexivity|].
  apply (proc_loop_stops_on_sentinel key_order [hb; hb] m w 1%nat [hb]
           (Some PassFn) key_order_lists_keys (or_intror eq_refl)
           eq_refl eq_refl eq_refl).
  - repeat constructor;
      exists (Message (VSig MP_TRANSPORT_HEARTBEAT)),
             (VSig MP_TRANSPORT_HEARTBEAT), (heartbeat "kid");
      (split; [reflexivity|]); (split; [reflexivity|]);
      (split; [reflexivity|by apply quiet_on_heartbeat]).
  - reflexivity.
Defined.

(** X14: when the loop of [proc_loop] is left by an exception (a message
    without handler, an error in a handler, in [loop_routine] or in the
    pacing function), [teardown] is not called: the outcome is the same
    whatever [teardown] is.  Leaving the [with] block closes the children
    all the same.  If that returns, the exception of the loop goes on to
    the caller; if closing the children raises in its turn, that exception
    takes the place of the first.  The line that announces the exit is not
    logged in either case. *)
Theorem proc_loop_error_skips_teardown fuel order cls sleep_fn m w
  v m0 w0 e m1 p1 w1 td :
  on_setup cls m w = (Ok v, m0, w0) ->
  proc_loop_while fuel cls sleep_fn m0 w0 = Some (Raise e, m1, p1, w1) ->
  proc_loop fuel order (with_teardown td cls) sleep_fn m w
  = match close_all_processes order (base m1) w1 with
    | (Ok _, pm2, w2) => Some (Raise e, with_base pm2 m1, p1, w2)
    | (Raise e', pm2, w2) => Some (Raise e', with_base pm2 m1, p1, w2)
    | (Block, pm2, w2) => Some (Block, with_base pm2 m1, p1, w2)
    end.
Proof.
  intros Hsetup Hloop.
  assert (Hsame : forall n s mm ww,
            proc_loop_while n (with_teardown td cls) s mm ww
            = proc_loop_while n cls s mm ww).
  { induction n as [|n IHn]; intros s mm ww; [reflexivity|].
    cbn [proc_loop_while with_teardown on_loop_routine].
    destruct (handle_messages None mm ww) as [[[b|e'|] mm1] ww1]; try done.
    destruct (should_stop_loop mm1); [done|].
    destruct (on_loop_routine cls mm1 ww1) as [[[u|e'|] mm2] ww2]; try done.
    destruct s as [p|]; [|apply IHn].
    destruct (call_pacer p ww2) as [[[u'|e'|] p'] ww3];
      first [done | apply IHn]. }
  unfold proc_loop, proc_loop_block. cbn [with_teardown on_setup].
  rewrite Hsetup, Hsame, Hloop. unfold ProcessManager_exit.
  by destruct (close_all_processes order (base m1) w1) as [[[u|e'|] pm2] w2].
Qed.

Lemma proc_loop_error_skips_teardown_witness :
  let m := MessengerProcess_init "kid" (Some 1%nat) in
  let w := with_inbound
             {[ 1%nat := [PDict (Message (VSig MESSENGER_SIGNAL_B))] ]}
             empty_world in
  let noisy : method := fun s w0 => (Ok VNone, s, print "teardown" w0) in
  exists e w2,
    proc_loop 5 key_order (with_teardown noisy MessengerProcess_class)
      None m w
    = Some (Raise e, m, None, w2)
    /\ stdout w2 = [].
Proof.
  intros m w noisy.
  pose proof (proc_loop_error_skips_teardown 5 key_order
                MessengerProcess_class None m w VNone m w _ _ _ _ noisy
                eq_refl eq_refl) as Hrun.
  rewrite Hrun. by eexists _, _.
Defined.

(** ** Factories *)

(** X15: [get_timed_loop].  Without synchronization it returns a fresh plain
    loop of the given period (counter 0, no origin yet) and logs one line;
    [player] and [iterations_per_update] play no part.  With
    synchronization it fails with [NameError] for every player while [mem]
    is unbound, as it is in the module as shipped; with [mem] bound it
    returns a fresh synchronized loop with the given interval, whose lookup
    function reads the clock location, whatever the player. *)
Theorem get_timed_loop_spec mem control_loop_period synchronize player
  iterations_per_update w :
  get_timed_loop mem control_loop_period synchronize player
    iterations_per_update w
  = if synchronize then
      (match mem with
       | Some m =>
           Ok (Synced
                 {| loop := {| i := 0; dt := control_loop_period;
                               init_time := None |};
                    iterations_per_update := iterations_per_update;
                    timestep_lookup_fn :=
                      _get_timestep_lookup_function control_loop_period
                        (DATA_CLOCK m) "real_time_factor" |})
       | None => Raise (NameError "name 'mem' is not defined")
       end, w)
    else
      (Ok (Timed {| i := 0; dt := control_loop_period; init_time := None |}),
       log_debug "un-timed loop" w).
Proof.
  unfold get_timed_loop, get_synchronized_timed_loop,
    get_timestep_lookup_function_by_player.
  rewrite first_condition_always.
  destruct synchronize; [|reflexivity]. by destruct mem.
Qed.

(** X16: [create_process_fn].  The name of the process is the one given, or
    the name of the class followed by [daemon].  Without a control loop
    period the pacing is [pass_fn], and [synchronize] and [player] are
    ignored, so that no error can arise; with a period and without
    synchronization the pacing is a fresh timed loop of that period; with a
    period and synchronization the creation itself fails with [NameError]
    while [mem] is unbound, and no process function is returned. *)
Theorem create_process_fn_spec mem cls proc_name control_loop_period
  synchronize player w :
  let name' := default (class_name cls ++ "daemon") proc_name in
  let closure p := {| closed_proc_name := name'; closed_class := cls;
                      closed_sleep_fn := p |} in
  create_process_fn mem cls proc_name control_loop_period synchronize
    player w
  = match control_loop_period with
    | None => (Ok (closure PassFn), w)
    | Some period =>
        if synchronize then
          match mem with
          | None => (Raise (NameError "name 'mem' is not defined"), w)
          | Some ms =>
              (Ok (closure
                     (Synced
                        (SynchronizedTimedLoop_init period 100
                           (_get_timestep_lookup_function period
                              (DATA_CLOCK ms) "real_time_factor")))), w)
          end
        else
          (Ok (closure (Timed (TimedLoop_init period))),
           log_debug "un-timed loop" w)
    end.
Proof.
  intros name' closure. unfold create_process_fn.
  destruct control_loop_period as [period|]; [|by destruct proc_name].
  unfold get_timed_loop, get_synchronized_timed_loop,
    get_timestep_lookup_function_by_player.
  rewrite first_condition_always.
  destruct synchronize; [destruct mem|]; by destruct proc_name.
Qed.




(** ** Pacing *)

(** The clock after a sleep that is done: the start, the length, and the
    time the sleep overshoots. *)
Lemma Qmax_nonneg_l (x : Q) : (0 <= x)%Q -> (Qmax x 0 == x)%Q.
Proof.
  intros H. destruct (Q.max_spec x 0) as [[H1 E]|[H1 E]]; rewrite E; lra.
Qed.

(** X18: a paced call never returns before its target time.  For a body that
    returns [r] and a sleep length the platform accepts, the wrapper
    returns [r] with the counter incremented and the origin set; the length
    passed to the sleep is [max(target - now, 0)], with [now] read after
    the body; and the clock at the return is the later of the target and
    the end of the body, plus the time the sleep overshoots.  So the call
    returns neither before its target nor before the end of its body. *)
Theorem paced_call_not_before_target loop_func self w r w1 :
  loop_func w = (Ok r, w1) ->
  let t0 := default (perf_counter w) (init_time self) in
  let target := (inject_Z (i self + 1) * dt self + t0)%Q in
  let d := Qmax (target - perf_counter w1) 0 in
  (d <= sleep_limit w1)%Q ->
  let out := TimedLoop_wrapper loop_func self w in
  out.1 = (Ok r, {| i := i self + 1; dt := dt self; init_time := Some t0 |})
  /\ sleeps out.2 = d :: sleeps w1
  /\ (now out.2
      == Qmax target (now w1) + Qmax (oversleep w1 (now w1) d) 0)%Q
  /\ (target <= now out.2)%Q
  /\ (now w1 <= now out.2)%Q.
Proof.
  intros Hbody t0 target d Hlimit out. unfold out.
  rewrite (TimedLoop_wrapper_call loop_func self w r w1 Hbody Hlimit).
  fold t0. fold target. fold d. cbn [fst snd now sleeps with_clock].
  split; [reflexivity|]. split; [reflexivity|].
  pose proof (sleep_nonneg (oversleep w1 (now w1) d)) as Hlag.
  assert (Hd : (now w1 + d == Qmax target (now w1))%Q).
  { unfold d, perf_counter.
    destruct (Q.max_spec (target - now w1) 0) as [[H1 E1]|[H1 E1]];
      destruct (Q.max_spec target (now w1)) as [[H2 E2]|[H2 E2]];
      rewrite E1, E2; lra. }
  pose proof (Q.le_max_l target (now w1)) as Hl.
  pose proof (Q.le_max_r target (now w1)) as Hr.
  split; [|split].
  - rewrite Hd. reflexivity.
  - rewrite Hd. lra.
  - rewrite Hd. lra.
Qed.

(** The catch-up test of the suite at its second call: period [0.02], the
    body overruns by [0.01], and the call returns at the end of the body,
    after a sleep of length [0]. *)
Lemma paced_call_not_before_target_witness :
  let self := {| i := 1; dt := 1 # 50; init_time := Some 0%Q |} in
  let w := with_clock (1 # 50) [] empty_world in
  busy (3 # 100) w = (Ok VNone, with_clock ((1 # 50) + (3 # 100)) [] w)
  /\ (TimedLoop_wrapper (busy (3 # 100)) self w).1.1 = Ok VNone
  /\ ((1 # 50) + (3 # 100) <= now (TimedLoop_wrapper (busy (3 # 100)) self w).2)%Q.
Proof.
  intros self w. split; [reflexivity|].
  destruct (paced_call_not_before_target (busy (3 # 100)) self w VNone
              (with_clock ((1 # 50) + (3 # 100)) [] w) eq_refl)
    as (Hr & _ & _ & _ & Hlate); [discriminate|].
  split; [by rewrite Hr|exact Hlate].
Defined.

(** A loop that is on schedule, up to the overshoot of its last sleep, stays
    so: with every body and overshoot together no longer than the period,
    each call ends on its target or later by no more than the overshoot of
    its own sleep. *)
Lemma run_paced_on_schedule dmax eps fs : forall self w,
  (0 <= dmax)%Q -> (0 <= eps)%Q -> (dmax + eps <= dt self)%Q ->
  (dt self <= sleep_limit w)%Q ->
  (forall t s, oversleep w t s <= eps)%Q ->
  Forall (takes_at_most dmax) fs ->
  let t0 := default (now w) (init_time self) in
  (t0 + inject_Z (i self) * dt self <= now w)%Q ->
  (now w <= t0 + inject_Z (i self) * dt self + eps)%Q ->
  exists tl' w',
    run_paced fs self w = (Ok tt, tl', w')
    /\ i tl' = (i self + Z.of_nat (length fs))%Z
    /\ dt tl' = dt self
    /\ (fs <> [] -> init_time tl' = Some t0)
    /\ (t0 + inject_Z (i self + Z.of_nat (length fs)) * dt self <= now w')%Q
    /\ (now w'
        <= t0 + inject_Z (i self + Z.of_nat (length fs)) * dt self + eps)%Q
    /\ length (sleeps w') = (length fs + length (sleeps w))%nat.
Proof.
  induction fs as [|f fs IH];
    intros self w Hdmax Heps Hfit Hlimit Hlag Hfs t0 Hlo Hhi.
  - exists self, w. simpl. rewrite Z.add_0_r. by repeat split.
  - apply Forall_cons in Hfs as [Hf Hfs].
    destruct (Hf w) as (r & w1 & Hbody & Hn1 & Hn2 & Hs1 & Hl1 & Ho1).
    set (target := (inject_Z (i self + 1) * dt self + t0)%Q).
    assert (Htarget : (target == t0 + inject_Z (i self) * dt self + dt self)%Q).
    { unfold target. rewrite inject_Z_plus. change (inject_Z 1) with 1%Q.
      ring. }
    assert (Hd : (Qmax (target - now w1) 0 == target - now w1)%Q).
    { apply Qmax_nonneg_l. lra. }
    set (d := Qmax (target - now w1) 0) in *.
    set (lag := Qmax (oversleep w1 (now w1) d) 0).
    assert (Hlag0 : (0 <= lag)%Q) by apply sleep_nonneg.
    assert (Hlag1 : (lag <= eps)%Q).
    { unfold lag. apply Q.max_lub; [|exact Heps]. rewrite Ho1. apply Hlag. }
    assert (Hcall : TimedLoop_wrapper f self w
                    = (Ok r,
                       {| i := i self + 1; dt := dt self;
                          init_time := Some t0 |},
                       with_clock (now w1 + d + lag)%Q (d :: sleeps w1) w1)).
    { apply (TimedLoop_wrapper_call f self w r w1 Hbody).
      unfold perf_counter. fold t0. fold target. fold d. rewrite Hl1. lra. }
    simpl run_paced. rewrite Hcall.
    destruct (IH {| i := i self + 1; dt := dt self; init_time := Some t0 |}
                (with_clock (now w1 + d + lag)%Q (d :: sleeps w1) w1))
      as (tl' & w' & Hrun & Hi' & Hdt' & Ht' & Hlo' & Hhi' & Hlen');
      cbn [i dt init_time default from_option id now with_clock sleep_limit
           oversleep]; try done.
    + by rewrite Hl1.
    + intros t s. rewrite Ho1. apply Hlag.
    + rewrite inject_Z_plus. change (inject_Z 1) with 1%Q. lra.
    + rewrite inject_Z_plus. change (inject_Z 1) with 1%Q. lra.
    + exists tl', w'. cbn [i dt init_time default from_option id now
                            with_clock sleeps] in *.
      split; [exact Hrun|]. split; [rewrite Hi'; cbn [length]; lia|].
      split; [done|]. split.
      * intros _. destruct fs; [|by apply Ht'].
        simpl in Hrun. by injection Hrun as <- <-.
      * replace (i self + Z.of_nat (length (f :: fs)))%Z
          with (i self + 1 + Z.of_nat (length fs))%Z by (cbn [length]; lia).
        split; [exact Hlo'|]. split; [exact Hhi'|].
        rewrite Hlen'. cbn [length]. rewrite Hs1. lia.
Qed.

(** X19: no drift.  A fresh timed loop of period [dt0] is called [n] times
    around functions that each return within [dmax] seconds, on a platform
    whose sleeps overshoot by at most [eps] seconds and accept a length of
    [dt0].  If [dmax + eps] is at most [dt0], every call returns, the
    counter ends at [n] with the origin at the clock of the first call, [n]
    sleeps were made, and the [n]-th call ends no earlier than [n] periods
    after the first began and no later than that by more than [eps]: the
    overshoots do not add up. *)
Theorem timed_loop_keeps_schedule dt0 dmax eps fs w :
  (0 <= dmax)%Q -> (0 <= eps)%Q -> (dmax + eps <= dt0)%Q ->
  (dt0 <= sleep_limit w)%Q ->
  (forall t s, oversleep w t s <= eps)%Q ->
  Forall (takes_at_most dmax) fs ->
  exists tl' w',
    run_paced fs (TimedLoop_init dt0) w = (Ok tt, tl', w')
    /\ i tl' = Z.of_nat (length fs)
    /\ (fs <> [] -> init_time tl' = Some (now w))
    /\ (now w + inject_Z (Z.of_nat (length fs)) * dt0 <= now w')%Q
    /\ (now w' <= now w + inject_Z (Z.of_nat (length fs)) * dt0 + eps)%Q
    /\ length (sleeps w') = (length fs + length (sleeps w))%nat.
Proof.
  intros Hdmax Heps Hfit Hlimit Hlag Hfs.
  destruct (run_paced_on_schedule dmax eps fs (TimedLoop_init dt0) w)
    as (tl' & w' & Hrun & Hi & _ & Ht & Hlo & Hhi & Hlen);
    cbn [TimedLoop_init i dt init_time default from_option id] in *;
    try done.
  - change (inject_Z 0) with 0%Q. lra.
  - change (inject_Z 0) with 0%Q. lra.
  - exists tl', w'. rewrite Z.add_0_l in *. by repeat split.
Qed.

(** Periods of [0.02] seconds, three bodies of at most [0.015] seconds, and
    sleeps that overshoot by at most [0.005] seconds. *)
Lemma timed_loop_keeps_schedule_witness :
  let fs := [busy (3 # 200); busy 0; busy (1 # 100)]%Q in
  Forall (takes_at_most (3 # 200)) fs
  /\ exists tl' w',
       run_paced fs (TimedLoop_init (1 # 50)) empty_world = (Ok tt, tl', w')
       /\ i tl' = 3%Z
       /\ (3 # 50 <= now w')%Q /\ (now w' <= (3 # 50) + (1 # 200))%Q.
Proof.
  intros fs.
  assert (Hbusy : forall d, (0 <= d)%Q -> (d <= 3 # 200)%Q ->
                            takes_at_most (3 # 200) (busy d)).
  { intros d H0 H1 w. eexists _, _. split; [reflexivity|].
    cbn [now with_clock sleeps sleep_limit oversleep].
    split; [lra|]. split; [lra|]. by repeat split. }
  assert (Hfs : Forall (takes_at_most (3 # 200)) fs).
  { repeat constructor; apply Hbusy; discriminate. }
  split; [exact Hfs|].
  destruct (timed_loop_keeps_schedule (1 # 50) (3 # 200) (1 # 200) fs
              empty_world) as (tl' & w' & Hrun & Hi & _ & Hlo & Hhi & _);
    try discriminate; try exact Hfs.
  exists tl', w'. split; [exact Hrun|]. split; [exact Hi|].
  change (inject_Z (Z.of_nat (length fs))) with 3%Q in Hlo, Hhi.
  change (now empty_world) with 0%Q in Hlo, Hhi. split; lra.
Defined.







(** X22: the lookup function built by [_get_timestep_lookup_function] reads
    the store and changes nothing.  It answers exactly when the store holds,
    under the key, a list whose first element is not zero, and the answer
    times that element is the control loop period; only the first element
    is read, and its sign is not checked.  A missing key raises [KeyError],
    an empty list [IndexError], a zero factor [ZeroDivisionError]. *)
Theorem timestep_lookup_outcomes control_loop_period memory_loc rtf_key w :
  let f := _get_timestep_lookup_function control_loop_period memory_loc
             rtf_key in
  let data := default ∅ (memory w !! memory_loc) in
  (f w).2 = w
  /\ (f w).1 <> Block
  /\ (forall q, (f w).1 = Ok q ->
        exists rtf rest,
          data !! rtf_key = Some (rtf :: rest)
          /\ (~ (rtf == 0)%Q)
          /\ (q * rtf == control_loop_period)%Q)
  /\ (forall rtf rest,
        data !! rtf_key = Some (rtf :: rest) -> ~ (rtf == 0)%Q ->
        (f w).1 = Ok (control_loop_period / rtf)%Q)
  /\ (data !! rtf_key = None -> (f w).1 = Raise (KeyError rtf_key))
  /\ (data !! rtf_key = Some [] -> exists m, (f w).1 = Raise (IndexError m))
  /\ (forall rtf rest,
        data !! rtf_key = Some (rtf :: rest) -> (rtf == 0)%Q ->
        exists m, (f w).1 = Raise (ZeroDivisionError m)).
Proof.
  intros f data. unfold f, _get_timestep_lookup_function. fold data.
  destruct (data !! rtf_key) as [[|rtf rest]|] eqn:E; simpl.
  - split; [done|]. split; [done|]. split; [done|]. split; [done|].
    split; [done|]. split; [by eexists|done].
  - destruct (Qeq_bool rtf 0) eqn:Hz; simpl.
    + apply Qeq_bool_iff in Hz.
      split; [done|]. split; [done|]. split; [done|]. split.
      { intros ? ? [= <- <-] Hn. done. }
      split; [done|]. split; [done|]. intros ? ? _ _. by eexists.
    + apply Qeq_bool_neq in Hz.
      split; [done|]. split; [done|]. split.
      { intros q [= <-]. exists rtf, rest. split; [done|]. split; [done|].
        field. exact Hz. }
      split; [by intros ? ? [= <- <-] _|].
      split; [done|]. split; [done|]. intros ? ? [= <- <-] Hz'. done.
  - split; [done|]. split; [done|]. split; [done|]. split; [done|].
    split; [done|]. split; done.
Qed.

Lemma timestep_lookup_outcomes_witness :
  let w := with_memory
             {[ "clock" := {[ "real_time_factor" := [1 # 2; 7 # 1]%Q ]} ]}
             empty_world in
  default ∅ (memory w !! "clock") !! "real_time_factor"
  = Some [1 # 2; 7 # 1]%Q
  /\ (~ (1 # 2 == 0)%Q)
  /\ (_get_timestep_lookup_function (1 # 100) "clock" "real_time_factor"
        w).1
     = Ok ((1 # 100) / (1 # 2))%Q.
Proof.
  intros w.
  assert (Hd : default ∅ (memory w !! "clock") !! "real_time_factor"
               = Some [1 # 2; 7 # 1]%Q) by reflexivity.
  assert (Hn : ~ (1 # 2 == 0)%Q) by discriminate.
  split; [exact Hd|]. split; [exact Hn|].
  exact (proj1 (proj2 (proj2 (proj2
           (timestep_lookup_outcomes (1 # 100) "clock" "real_time_factor"
              w)))) _ _ Hd Hn).
Defined.

(** ** Messages *)

Lemma create_fields_other (kwargs : list (string * pyval)) :
  forall (m : gmap string pyval) k,
    k ∉ kwargs.*1 ->
    foldl (fun msg kv => <[kv.1 := kv.2]> msg) m kwargs !! k = m !! k.
Proof.
  induction kwargs as [|[k0 v0] kwargs IH]; intros m k Hk; [done|].
  simpl in *. apply not_elem_of_cons in Hk as [Hne Hk].
  rewrite IH by done. by rewrite lookup_insert_ne.
Qed.

Lemma create_fields_given (kwargs : list (string * pyval)) :
  forall (m : gmap string pyval) k v,
    NoDup kwargs.*1 ->
    (k, v) ∈ kwargs ->
    foldl (fun msg kv => <[kv.1 := kv.2]> msg) m kwargs !! k = Some v.
Proof.
  induction kwargs as [|[k0 v0] kwargs IH]; intros m k v Hnd Hin.
  - by apply elem_of_nil in Hin.
  - simpl in *. apply NoDup_cons in Hnd as [Hk0 Hnd].
    apply elem_of_cons in Hin as [[= -> ->]|Hin].
    + rewrite create_fields_other by done. apply lookup_insert_eq.
    + by apply IH.
Qed.

(** X23: a message built by [create_message] from a signal and named fields
    (distinct names, none of them ['type'], as a call with keyword arguments
    ensures) has the signal as its [type], every field under its name, and
    no other key. *)
Theorem create_message_fields type kwargs :
  NoDup kwargs.*1 ->
  "type" ∉ kwargs.*1 ->
  Message_type (create_message type kwargs) = Ok type
  /\ (forall k v, (k, v) ∈ kwargs ->
        create_message type kwargs !! k = Some v)
  /\ (forall k, k <> "type" -> k ∉ kwargs.*1 ->
        create_message type kwargs !! k = None).
Proof.
  intros Hnd Htype. unfold Message_type, create_message, Message.
  split; [|split].
  - rewrite create_fields_other by done. by rewrite lookup_insert_eq.
  - intros k v Hin. by apply create_fields_given.
  - intros k Hk Hnot. rewrite create_fields_other by done.
    by rewrite lookup_insert_ne.
Qed.

Lemma create_message_fields_witness :
  let kwargs := [("sys", VInt 5)] in
  NoDup kwargs.*1
  /\ ("type" ∉ kwargs.*1)
  /\ Message_type (create_message (VSig MESSENGER_SIGNAL_A) kwargs)
     = Ok (VSig MESSENGER_SIGNAL_A)
  /\ create_message (VSig MESSENGER_SIGNAL_A) kwargs !! "sys"
     = Some (VInt 5).
Proof.
  intros kwargs.
  assert (Hnd : NoDup kwargs.*1).
  { simpl. apply NoDup_singleton. }
  assert (Hty : "type" ∉ kwargs.*1).
  { simpl. intros [H|H]%elem_of_cons; [discriminate H|].
    by apply elem_of_nil in H. }
  split; [exact Hnd|]. split; [exact Hty|].
  destruct (create_message_fields (VSig MESSENGER_SIGNAL_A) kwargs Hnd Hty)
    as (Ht & Hf & _).
  split; [exact Ht|]. apply Hf. by left.
Defined.

(** X24: [change_dt] and [reset_start_time] make the loop forget its
    schedule.  However far behind its schedule the loop was, the first call
    after either of them, around a function that returns and during which
    the clock does not go back, has the counter at 1 and the origin at the
    clock of that call, and returns no earlier than one period after it
    began, when the period in force is not negative and the platform
    accepts a sleep of that length.  [reset_start_time] keeps the period,
    [change_dt] installs the new one. *)
Theorem reset_restarts_schedule loop_func self new_dt w r w1 :
  loop_func w = (Ok r, w1) ->
  (now w <= now w1)%Q ->
  let after_call tl := TimedLoop_wrapper loop_func tl w in
  ((0 <= new_dt)%Q -> (new_dt <= sleep_limit w1)%Q ->
   (after_call (change_dt new_dt self)).1
   = (Ok r, {| i := 1; dt := new_dt; init_time := Some (now w) |})
   /\ (now w + new_dt <= now (after_call (change_dt new_dt self)).2)%Q)
  /\ ((0 <= dt self)%Q -> (dt self <= sleep_limit w1)%Q ->
      (after_call (reset_start_time self)).1
      = (Ok r, {| i := 1; dt := dt self; init_time := Some (now w) |})
      /\ (now w + dt self <= now (after_call (reset_start_time self)).2)%Q).
Proof.
  intros Hbody Hmono after_call.
  assert (Hfresh : forall p,
            (0 <= p)%Q -> (p <= sleep_limit w1)%Q ->
            (after_call {| i := 0; dt := p; init_time := None |}).1
            = (Ok r, {| i := 1; dt := p; init_time := Some (now w) |})
            /\ (now w + p
                <= now (after_call {| i := 0; dt := p;
                                      init_time := None |}).2)%Q).
  { intros p Hp Hl. unfold after_call.
    set (d := Qmax (inject_Z (0 + 1) * p + now w - now w1) 0).
    assert (Hd : (d <= p)%Q).
    { unfold d. change (inject_Z (0 + 1)) with 1%Q.
      apply Q.max_lub; lra. }
    assert (Hd' : (1 * p + now w - now w1 <= d)%Q).
    { unfold d. change (inject_Z (0 + 1)) with 1%Q. apply Q.le_max_l. }
    rewrite (TimedLoop_wrapper_call loop_func _ w r w1 Hbody);
      cbn [i dt init_time default from_option id]; unfold perf_counter;
      fold d.
    - split; [reflexivity|]. cbn [snd now with_clock].
      pose proof (sleep_nonneg (oversleep w1 (now w1) d)). lra.
    - lra. }
  split; intros H1 H2; by apply Hfresh.
Qed.

(** A loop that is a hundred calls into a schedule long past, reset. *)
Lemma reset_restarts_schedule_witness :
  let late := {| i := 100; dt := 1 # 50; init_time := Some 0%Q |} in
  let w := with_clock 50 [] empty_world in
  busy (1 # 100) w = (Ok VNone, with_clock (50 + (1 # 100)) [] w)
  /\ (now w <= 50 + (1 # 100))%Q
  /\ (TimedLoop_wrapper (busy (1 # 100)) (reset_start_time late) w).1
     = (Ok VNone, {| i := 1; dt := 1 # 50; init_time := Some 50%Q |})
  /\ (50 + (1 # 50)
      <= now (TimedLoop_wrapper (busy (1 # 100)) (reset_start_time late)
                w).2)%Q.
Proof.
  intros late w.
  assert (Hm : (now w <= 50 + (1 # 100))%Q) by discriminate.
  split; [reflexivity|]. split; [exact Hm|].
  destruct (proj2 (reset_restarts_schedule (busy (1 # 100)) late (1 # 50) w
                     VNone (with_clock (50 + (1 # 100)) [] w) eq_refl Hm))
    as [Hr Hnow]; [discriminate|discriminate|].
  split; [exact Hr|exact Hnow].
Defined.

(** ** The paced run loop *)

(** One turn of the loop of a process as constructed on a heartbeat
    message: the message is taken and answered, and the clock stays. *)
Lemma handle_messages_heartbeat name' c (d : gmap string pyval) rest w :
  waiting c w = PDict d :: rest ->
  d !! "type" = Some (VSig MP_TRANSPORT_HEARTBEAT) ->
  d !! "self" = None ->
  exists w',
    handle_messages None (MessengerProcess_init name' (Some c)) w
    = (Ok true, MessengerProcess_init name' (Some c), w')
    /\ waiting c w' = rest
    /\ now w' = now w
    /\ sleeps w' = sleeps w
    /\ sleep_limit w' = sleep_limit w.
Proof.
  intros Hq Hty Hself.
  set (m := MessengerProcess_init name' (Some c)).
  assert (Hc : link_to_parent (base m) = Some c) by reflexivity.
  assert (Hfn : recognized_signals m !! VSig MP_TRANSPORT_HEARTBEAT
                = Some (heartbeat name')) by apply lookup_insert_eq.
  clearbody m.
  unfold handle_messages, there_is_a_new_message, poll, recv, connection_of,
    conn_poll, conn_recv.
  rewrite Hc, Hq. cbn [msg_is_stop_signal].
  unfold process_message. rewrite Hty. unfold handler in *. rewrite Hfn.
  unfold heartbeat. rewrite Hself.
  eexists. split; [reflexivity|]. split; [|done].
  unfold waiting. simpl. by rewrite lookup_insert_eq.
Qed.

(** The loop of a process as constructed, paced by a timed loop that is not
    ahead of its schedule, over heartbeat messages followed by the stop
    sentinel. *)
Lemma proc_loop_while_paced (ms : list packet) : forall name' c rest tl w,
  (0 <= dt tl)%Q ->
  (dt tl <= sleep_limit w)%Q ->
  (default (now w) (init_time tl) + inject_Z (i tl) * dt tl <= now w)%Q ->
  Forall (fun p => exists d : gmap string pyval,
            p = PDict d /\ d !! "type" = Some (VSig MP_TRANSPORT_HEARTBEAT)
            /\ d !! "self" = None)
         ms ->
  waiting c w = (ms ++ PVal (VSig MP_TRANSPORT_STOP) :: rest)%list ->
  exists tl' w',
    proc_loop_while (S (length ms)) MessengerProcess_class (Some (Timed tl))
      (MessengerProcess_init name' (Some c)) w
    = Some (Ok tt,
            with_should_stop true (MessengerProcess_init name' (Some c)),
            Some (Timed tl'), w')
    /\ i tl' = (i tl + Z.of_nat (length ms))%Z
    /\ dt tl' = dt tl
    /\ (default (now w) (init_time tl)
        + inject_Z (i tl + Z.of_nat (length ms)) * dt tl <= now w')%Q
    /\ length (sleeps w') = (length ms + length (sleeps w))%nat
    /\ waiting c w' = rest.
Proof.
  induction ms as [|p ms IH]; intros name' c rest tl w Hdt Hlim Hnow Hms Hq.
  - simpl in Hq. cbn [length proc_loop_while].
    set (m := MessengerProcess_init name' (Some c)).
    assert (Hc : link_to_parent (base m) = Some c) by reflexivity.
    clearbody m.
    unfold handle_messages, there_is_a_new_message, poll, recv,
      connection_of, conn_poll, conn_recv.
    rewrite Hc, Hq. cbn [msg_is_stop_signal enum_of]. simpl.
    eexists _, _. split; [reflexivity|]. simpl.
    split; [lia|]. split; [done|]. rewrite Z.add_0_r.
    split; [exact Hnow|]. split; [done|].
    unfold waiting. simpl. by rewrite lookup_insert_eq.
  - apply Forall_cons in Hms as [(d & -> & Hty & Hself) Hms]. simpl in Hq.
    destruct (handle_messages_heartbeat name' c d _ w Hq Hty Hself)
      as (w1 & Hh & Hq1 & Hn1 & Hs1 & Hl1).
    cbn [length]. cbn [proc_loop_while]. rewrite Hh.
    cbn [should_stop_loop should_stop MessengerProcess_init with_should_stop
         add_signal on_loop_routine MessengerProcess_class loop_routine
         call_pacer].
    set (t0 := default (now w) (init_time tl)) in *.
    set (target := (inject_Z (i tl + 1) * dt tl + t0)%Q).
    assert (Ht0 : default (perf_counter w1) (init_time tl) = t0).
    { unfold perf_counter, t0. by rewrite Hn1. }
    assert (Htarget : (target == t0 + inject_Z (i tl) * dt tl + dt tl)%Q).
    { unfold target. rewrite inject_Z_plus. change (inject_Z 1) with 1%Q.
      ring. }
    set (s := Qmax (target - now w) 0).
    assert (Hs0 : (target - now w <= s)%Q) by apply Q.le_max_l.
    assert (Hs : (s <= dt tl)%Q) by (apply Q.max_lub; lra).
    set (lag := Qmax (oversleep w1 (now w) s) 0).
    assert (Hlag : (0 <= lag)%Q) by apply sleep_nonneg.
    assert (Hcall : TimedLoop_wrapper pass_fn tl w1
                    = (Ok VNone,
                       {| i := i tl + 1; dt := dt tl; init_time := Some t0 |},
                       with_clock (now w + s + lag)%Q (s :: sleeps w1) w1)).
    { rewrite (TimedLoop_wrapper_call pass_fn tl w1 VNone w1 eq_refl);
        rewrite Ht0; fold target; unfold perf_counter; rewrite Hn1; fold s.
      - reflexivity.
      - rewrite Hl1. lra. }
    rewrite Hcall.
    destruct (IH name' c rest
                {| i := i tl + 1; dt := dt tl; init_time := Some t0 |}
                (with_clock (now w + s + lag)%Q (s :: sleeps w1) w1))
      as (tl' & w' & Hrun & Hi' & Hdt' & Hnow' & Hlen' & Hrest');
      cbn [i dt init_time default from_option id now with_clock sleep_limit];
      try done.
    + by rewrite Hl1.
    + rewrite inject_Z_plus. change (inject_Z 1) with 1%Q. lra.
    + exists tl', w'. split; [exact Hrun|].
      cbn [i dt init_time default from_option id now with_clock sleeps]
        in *.
      split; [rewrite Hi'; lia|]. split; [done|]. split.
      * replace (i tl + Z.of_nat (S (length ms)))%Z
          with (i tl + 1 + Z.of_nat (length ms))%Z by lia.
        exact Hnow'.
      * split; [|done]. rewrite Hlen', Hs1. cbn [length]. lia.
Qed.

(** X25: one message for every period.  The loop takes at most one message
    from the parent in each turn and calls the pacing function once after
    it.  So a process as constructed, paced by a fresh timed loop whose
    period [dt0] is not negative and is a length the platform's sleep
    accepts, that finds [n] heartbeat messages without a field named [self]
    and then the stop sentinel in its queue, takes at least [n] periods:
    [proc_loop] returns normally, the loop object has counted [n] calls,
    [n] sleeps were made, and the clock stands at least [n] periods after
    the start.  What follows the sentinel stays in the queue. *)
Theorem proc_loop_one_message_per_period order (ms : list packet) name' c
  rest dt0 w :
  lists_keys order ->
  (0 <= dt0)%Q ->
  (dt0 <= sleep_limit w)%Q ->
  Forall (fun p => exists d : gmap string pyval,
            p = PDict d /\ d !! "type" = Some (VSig MP_TRANSPORT_HEARTBEAT)
            /\ d !! "self" = None)
         ms ->
  waiting c w = (ms ++ PVal (VSig MP_TRANSPORT_STOP) :: rest)%list ->
  exists m' tl' w',
    proc_loop (S (length ms)) order MessengerProcess_class
      (Some (Timed (TimedLoop_init dt0)))
      (MessengerProcess_init name' (Some c)) w
    = Some (Ok tt, m', Some (Timed tl'), w')
    /\ should_stop m' = true
    /\ i tl' = Z.of_nat (length ms)
    /\ dt tl' = dt0
    /\ (now w + inject_Z (Z.of_nat (length ms)) * dt0 <= now w')%Q
    /\ length (sleeps w') = (length ms + length (sleeps w))%nat
    /\ waiting c w' = rest.
Proof.
  intros Horder Hdt Hlim Hms Hq.
  destruct (proc_loop_while_paced ms name' c rest (TimedLoop_init dt0) w)
    as (tl' & w1 & Hloop & Hi & Hdt' & Hnow & Hlen & Hrest);
    cbn [TimedLoop_init i dt init_time default from_option id]; try done.
  - change (inject_Z 0) with 0%Q. lra.
  - unfold proc_loop, proc_loop_block.
    cbn [on_setup on_teardown MessengerProcess_class setup teardown].
    rewrite Hloop. cbn [shape]. unfold ProcessManager_exit.
    rewrite (close_all_processes_leaf order _ w1 Horder) by reflexivity.
    eexists _, _, _. split; [reflexivity|].
    split; [reflexivity|]. split; [by rewrite Hi|]. split; [exact Hdt'|].
    split; [|split; [exact Hlen|exact Hrest]].
    cbn [TimedLoop_init i dt init_time default from_option id] in Hnow.
    rewrite Z.add_0_l in Hnow. exact Hnow.
Qed.

Lemma proc_loop_one_message_per_period_witness :
  let hb := PDict (Message (VSig MP_TRANSPORT_HEARTBEAT)) in
  let w := with_inbound
             {[ 1%nat := [hb; hb; hb; PVal (VSig MP_TRANSPORT_STOP)] ]}
             empty_world in
  lists_keys key_order
  /\ (0 <= 1 # 100)%Q
  /\ (1 # 100 <= sleep_limit w)%Q
  /\ waiting 1 w = ([hb; hb; hb] ++ PVal (VSig MP_TRANSPORT_STOP) :: [])%list
  /\ exists m' tl' w',
       proc_loop 4 key_order MessengerProcess_class
         (Some (Timed (TimedLoop_init (1 # 100))))
         (MessengerProcess_init "kid" (Some 1%nat)) w
       = Some (Ok tt, m', Some (Timed tl'), w')
       /\ i tl' = 3%Z
       /\ (3 # 100 <= now w')%Q.
Proof.
  intros hb w.
  assert (H0 : (0 <= 1 # 100)%Q) by discriminate.
  assert (Hl : (1 # 100 <= sleep_limit w)%Q) by discriminate.
  split; [exact key_order_lists_keys|]. split; [exact H0|].
  split; [exact Hl|]. split; [reflexivity|].
  destruct (proc_loop_one_message_per_period key_order [hb; hb; hb] "kid"
              1%nat [] (1 # 100) w key_order_lists_keys H0 Hl)
    as (m' & tl' & w' & Hrun & _ & Hi & _ & Hnow & _).
  - repeat constructor;
      exists (Message (VSig MP_TRANSPORT_HEARTBEAT)); by repeat split.
  - reflexivity.
  - exists m', tl', w'. split; [exact Hrun|]. split; [exact Hi|].
    change (inject_Z (Z.of_nat (length [hb; hb; hb]))) with 3%Q in Hnow.
    change (now w) with 0%Q in Hnow. lra.
Defined.
